(** * The "Add new ecoinvent version" notebook of rower

    The code at hand is one Jupyter notebook,
    [docs/notebooks/Add new ecoinvent version.ipynb], run cell after cell
    from the top.  Its cells call collaborators defined elsewhere (bw2data,
    bw2io, ecoinvent_interface, and [update_ecoinvent_definitions] of
    rower.updating).  The notebook is embedded here as a program over those
    calls: a tree whose nodes are the calls the cells make, in the order
    Python evaluates them, and whose branches are the notebook's own [if] and
    [assert].  What a collaborator answers is never fixed: every theorem
    about executions quantifies over an arbitrary handler of the calls, which
    may answer anything of the right type or raise. *)

From Stdlib Require Import Ascii Sorted.
From stdpp Require Import gmap strings list.

Set Default Proof Using "Type".
Set Warnings "-clear-no-such-hyp".

(** ** Python strings

    A [str] is a sequence of Unicode code points. *)
Definition pystr := list N.

#[global] Instance pystr_eq_dec : EqDecision pystr := list_eq_dec.
#[global] Instance pystr_countable : Countable pystr := list_countable.

(** String literals are read as UTF-8.  A byte that is part of no
    well-formed sequence is kept as the code point U+DC00 + byte. *)
Definition continuation (b : N) : bool := (0x80 <=? b)%N && (b <=? 0xBF)%N.

Fixpoint utf8_decode (bs : list N) : pystr :=
  match bs with
  | [] => []
  | b0 :: t0 =>
      let escaped := (0xDC00 + b0)%N :: utf8_decode t0 in
      if (b0 <? 0x80)%N then b0 :: utf8_decode t0 else
      match t0 with
      | [] => escaped
      | b1 :: t1 =>
          if (0xC2 <=? b0)%N && (b0 <=? 0xDF)%N && continuation b1
          then ((b0 - 0xC0) * 0x40 + (b1 - 0x80))%N :: utf8_decode t1 else
          match t1 with
          | [] => escaped
          | b2 :: t2 =>
              let c3 := ((b0 - 0xE0) * 0x1000 + (b1 - 0x80) * 0x40
                         + (b2 - 0x80))%N in
              if (0xE0 <=? b0)%N && (b0 <=? 0xEF)%N
                 && continuation b1 && continuation b2
                 && (0x800 <=? c3)%N
                 && negb ((0xD800 <=? c3)%N && (c3 <=? 0xDFFF)%N)
              then c3 :: utf8_decode t2 else
              match t2 with
              | [] => escaped
              | b3 :: t3 =>
                  let c4 := ((b0 - 0xF0) * 0x40000 + (b1 - 0x80) * 0x1000
                             + (b2 - 0x80) * 0x40 + (b3 - 0x80))%N in
                  if (0xF0 <=? b0)%N && (b0 <=? 0xF4)%N
                     && continuation b1 && continuation b2 && continuation b3
                     && (0x10000 <=? c4)%N && (c4 <=? 0x10FFFF)%N
                  then c4 :: utf8_decode t3 else escaped
              end
          end
      end
  end.

Fixpoint bytes_of (s : string) : list N :=
  match s with
  | EmptyString => []
  | String c rest => N_of_ascii c :: bytes_of rest
  end.

Definition py (s : string) : pystr := utf8_decode (bytes_of s).
Coercion py : string >-> pystr.

(** ** str.lower

    The lower-case mappings and the two character classes that decide the
    form of a final sigma, of Unicode 14.0 (the tables of CPython 3.11;
    [lower] follows its [do_lower]).  A row [(first, last, step,
    target)] maps [first], [first + step], ..., [last] to [target],
    [target + step], ... *)
Definition lower_rows : list (N * N * N * N) := Eval cbv in
  [
   (0x41, 0x5A, 1, 0x61); (0xC0, 0xD6, 1, 0xE0); (0xD8, 0xDE, 1, 0xF8);
   (0x100, 0x12E, 2, 0x101); (0x132, 0x136, 2, 0x133); (0x139, 0x147, 2, 0x13A);
   (0x14A, 0x176, 2, 0x14B); (0x178, 0x178, 1, 0xFF); (0x179, 0x17D, 2, 0x17A);
   (0x181, 0x181, 1, 0x253); (0x182, 0x184, 2, 0x183); (0x186, 0x186, 1, 0x254);
   (0x187, 0x187, 1, 0x188); (0x189, 0x18A, 1, 0x256); (0x18B, 0x18B, 1, 0x18C);
   (0x18E, 0x18E, 1, 0x1DD); (0x18F, 0x18F, 1, 0x259); (0x190, 0x190, 1, 0x25B);
   (0x191, 0x191, 1, 0x192); (0x193, 0x193, 1, 0x260); (0x194, 0x194, 1, 0x263);
   (0x196, 0x196, 1, 0x269); (0x197, 0x197, 1, 0x268); (0x198, 0x198, 1, 0x199);
   (0x19C, 0x19C, 1, 0x26F); (0x19D, 0x19D, 1, 0x272); (0x19F, 0x19F, 1, 0x275);
   (0x1A0, 0x1A4, 2, 0x1A1); (0x1A6, 0x1A6, 1, 0x280); (0x1A7, 0x1A7, 1, 0x1A8);
   (0x1A9, 0x1A9, 1, 0x283); (0x1AC, 0x1AC, 1, 0x1AD); (0x1AE, 0x1AE, 1, 0x288);
   (0x1AF, 0x1AF, 1, 0x1B0); (0x1B1, 0x1B2, 1, 0x28A); (0x1B3, 0x1B5, 2, 0x1B4);
   (0x1B7, 0x1B7, 1, 0x292); (0x1B8, 0x1B8, 1, 0x1B9); (0x1BC, 0x1BC, 1, 0x1BD);
   (0x1C4, 0x1C4, 1, 0x1C6); (0x1C5, 0x1C5, 1, 0x1C6); (0x1C7, 0x1C7, 1, 0x1C9);
   (0x1C8, 0x1C8, 1, 0x1C9); (0x1CA, 0x1CA, 1, 0x1CC); (0x1CB, 0x1DB, 2, 0x1CC);
   (0x1DE, 0x1EE, 2, 0x1DF); (0x1F1, 0x1F1, 1, 0x1F3); (0x1F2, 0x1F4, 2, 0x1F3);
   (0x1F6, 0x1F6, 1, 0x195); (0x1F7, 0x1F7, 1, 0x1BF); (0x1F8, 0x21E, 2, 0x1F9);
   (0x220, 0x220, 1, 0x19E); (0x222, 0x232, 2, 0x223); (0x23A, 0x23A, 1, 0x2C65);
   (0x23B, 0x23B, 1, 0x23C); (0x23D, 0x23D, 1, 0x19A); (0x23E, 0x23E, 1, 0x2C66);
   (0x241, 0x241, 1, 0x242); (0x243, 0x243, 1, 0x180); (0x244, 0x244, 1, 0x289);
   (0x245, 0x245, 1, 0x28C); (0x246, 0x24E, 2, 0x247); (0x370, 0x372, 2, 0x371);
   (0x376, 0x376, 1, 0x377); (0x37F, 0x37F, 1, 0x3F3); (0x386, 0x386, 1, 0x3AC);
   (0x388, 0x38A, 1, 0x3AD); (0x38C, 0x38C, 1, 0x3CC); (0x38E, 0x38F, 1, 0x3CD);
   (0x391, 0x3A1, 1, 0x3B1); (0x3A3, 0x3AB, 1, 0x3C3); (0x3CF, 0x3CF, 1, 0x3D7);
   (0x3D8, 0x3EE, 2, 0x3D9); (0x3F4, 0x3F4, 1, 0x3B8); (0x3F7, 0x3F7, 1, 0x3F8);
   (0x3F9, 0x3F9, 1, 0x3F2); (0x3FA, 0x3FA, 1, 0x3FB); (0x3FD, 0x3FF, 1, 0x37B);
   (0x400, 0x40F, 1, 0x450); (0x410, 0x42F, 1, 0x430); (0x460, 0x480, 2, 0x461);
   (0x48A, 0x4BE, 2, 0x48B); (0x4C0, 0x4C0, 1, 0x4CF); (0x4C1, 0x4CD, 2, 0x4C2);
   (0x4D0, 0x52E, 2, 0x4D1); (0x531, 0x556, 1, 0x561); (0x10A0, 0x10C5, 1, 0x2D00);
   (0x10C7, 0x10C7, 1, 0x2D27); (0x10CD, 0x10CD, 1, 0x2D2D); (0x13A0, 0x13EF, 1, 0xAB70);
   (0x13F0, 0x13F5, 1, 0x13F8); (0x1C90, 0x1CBA, 1, 0x10D0); (0x1CBD, 0x1CBF, 1, 0x10FD);
   (0x1E00, 0x1E94, 2, 0x1E01); (0x1E9E, 0x1E9E, 1, 0xDF); (0x1EA0, 0x1EFE, 2, 0x1EA1);
   (0x1F08, 0x1F0F, 1, 0x1F00); (0x1F18, 0x1F1D, 1, 0x1F10); (0x1F28, 0x1F2F, 1, 0x1F20);
   (0x1F38, 0x1F3F, 1, 0x1F30); (0x1F48, 0x1F4D, 1, 0x1F40); (0x1F59, 0x1F5F, 2, 0x1F51);
   (0x1F68, 0x1F6F, 1, 0x1F60); (0x1F88, 0x1F8F, 1, 0x1F80); (0x1F98, 0x1F9F, 1, 0x1F90);
   (0x1FA8, 0x1FAF, 1, 0x1FA0); (0x1FB8, 0x1FB9, 1, 0x1FB0); (0x1FBA, 0x1FBB, 1, 0x1F70);
   (0x1FBC, 0x1FBC, 1, 0x1FB3); (0x1FC8, 0x1FCB, 1, 0x1F72); (0x1FCC, 0x1FCC, 1, 0x1FC3);
   (0x1FD8, 0x1FD9, 1, 0x1FD0); (0x1FDA, 0x1FDB, 1, 0x1F76); (0x1FE8, 0x1FE9, 1, 0x1FE0);
   (0x1FEA, 0x1FEB, 1, 0x1F7A); (0x1FEC, 0x1FEC, 1, 0x1FE5); (0x1FF8, 0x1FF9, 1, 0x1F78);
   (0x1FFA, 0x1FFB, 1, 0x1F7C); (0x1FFC, 0x1FFC, 1, 0x1FF3); (0x2126, 0x2126, 1, 0x3C9);
   (0x212A, 0x212A, 1, 0x6B); (0x212B, 0x212B, 1, 0xE5); (0x2132, 0x2132, 1, 0x214E);
   (0x2160, 0x216F, 1, 0x2170); (0x2183, 0x2183, 1, 0x2184); (0x24B6, 0x24CF, 1, 0x24D0);
   (0x2C00, 0x2C2F, 1, 0x2C30); (0x2C60, 0x2C60, 1, 0x2C61); (0x2C62, 0x2C62, 1, 0x26B);
   (0x2C63, 0x2C63, 1, 0x1D7D); (0x2C64, 0x2C64, 1, 0x27D); (0x2C67, 0x2C6B, 2, 0x2C68);
   (0x2C6D, 0x2C6D, 1, 0x251); (0x2C6E, 0x2C6E, 1, 0x271); (0x2C6F, 0x2C6F, 1, 0x250);
   (0x2C70, 0x2C70, 1, 0x252); (0x2C72, 0x2C72, 1, 0x2C73); (0x2C75, 0x2C75, 1, 0x2C76);
   (0x2C7E, 0x2C7F, 1, 0x23F); (0x2C80, 0x2CE2, 2, 0x2C81); (0x2CEB, 0x2CED, 2, 0x2CEC);
   (0x2CF2, 0x2CF2, 1, 0x2CF3); (0xA640, 0xA66C, 2, 0xA641); (0xA680, 0xA69A, 2, 0xA681);
   (0xA722, 0xA72E, 2, 0xA723); (0xA732, 0xA76E, 2, 0xA733); (0xA779, 0xA77B, 2, 0xA77A);
   (0xA77D, 0xA77D, 1, 0x1D79); (0xA77E, 0xA786, 2, 0xA77F); (0xA78B, 0xA78B, 1, 0xA78C);
   (0xA78D, 0xA78D, 1, 0x265); (0xA790, 0xA792, 2, 0xA791); (0xA796, 0xA7A8, 2, 0xA797);
   (0xA7AA, 0xA7AA, 1, 0x266); (0xA7AB, 0xA7AB, 1, 0x25C); (0xA7AC, 0xA7AC, 1, 0x261);
   (0xA7AD, 0xA7AD, 1, 0x26C); (0xA7AE, 0xA7AE, 1, 0x26A); (0xA7B0, 0xA7B0, 1, 0x29E);
   (0xA7B1, 0xA7B1, 1, 0x287); (0xA7B2, 0xA7B2, 1, 0x29D); (0xA7B3, 0xA7B3, 1, 0xAB53);
   (0xA7B4, 0xA7C2, 2, 0xA7B5); (0xA7C4, 0xA7C4, 1, 0xA794); (0xA7C5, 0xA7C5, 1, 0x282);
   (0xA7C6, 0xA7C6, 1, 0x1D8E); (0xA7C7, 0xA7C9, 2, 0xA7C8); (0xA7D0, 0xA7D0, 1, 0xA7D1);
   (0xA7D6, 0xA7D8, 2, 0xA7D7); (0xA7F5, 0xA7F5, 1, 0xA7F6); (0xFF21, 0xFF3A, 1, 0xFF41);
   (0x10400, 0x10427, 1, 0x10428); (0x104B0, 0x104D3, 1, 0x104D8); (0x10570, 0x1057A, 1, 0x10597);
   (0x1057C, 0x1058A, 1, 0x105A3); (0x1058C, 0x10592, 1, 0x105B3); (0x10594, 0x10595, 1, 0x105BB);
   (0x10C80, 0x10CB2, 1, 0x10CC0); (0x118A0, 0x118BF, 1, 0x118C0); (0x16E40, 0x16E5F, 1, 0x16E60);
   (0x1E900, 0x1E921, 1, 0x1E922)
  ]%N.

(** Characters that are cased and not case-ignorable. *)
Definition cased_ranges : list (N * N) := Eval cbv in
  [
   (0x41, 0x5A); (0x61, 0x7A); (0xAA, 0xAA); (0xB5, 0xB5); (0xBA, 0xBA);
   (0xC0, 0xD6); (0xD8, 0xF6); (0xF8, 0x1BA); (0x1BC, 0x1BF); (0x1C4, 0x293);
   (0x295, 0x2AF); (0x370, 0x373); (0x376, 0x377); (0x37B, 0x37D); (0x37F, 0x37F);
   (0x386, 0x386); (0x388, 0x38A); (0x38C, 0x38C); (0x38E, 0x3A1); (0x3A3, 0x3F5);
   (0x3F7, 0x481); (0x48A, 0x52F); (0x531, 0x556); (0x560, 0x588); (0x10A0, 0x10C5);
   (0x10C7, 0x10C7); (0x10CD, 0x10CD); (0x10D0, 0x10FA); (0x10FD, 0x10FF); (0x13A0, 0x13F5);
   (0x13F8, 0x13FD); (0x1C80, 0x1C88); (0x1C90, 0x1CBA); (0x1CBD, 0x1CBF); (0x1D00, 0x1D2B);
   (0x1D6B, 0x1D77); (0x1D79, 0x1D9A); (0x1E00, 0x1F15); (0x1F18, 0x1F1D); (0x1F20, 0x1F45);
   (0x1F48, 0x1F4D); (0x1F50, 0x1F57); (0x1F59, 0x1F59); (0x1F5B, 0x1F5B); (0x1F5D, 0x1F5D);
   (0x1F5F, 0x1F7D); (0x1F80, 0x1FB4); (0x1FB6, 0x1FBC); (0x1FBE, 0x1FBE); (0x1FC2, 0x1FC4);
   (0x1FC6, 0x1FCC); (0x1FD0, 0x1FD3); (0x1FD6, 0x1FDB); (0x1FE0, 0x1FEC); (0x1FF2, 0x1FF4);
   (0x1FF6, 0x1FFC); (0x2102, 0x2102); (0x2107, 0x2107); (0x210A, 0x2113); (0x2115, 0x2115);
   (0x2119, 0x211D); (0x2124, 0x2124); (0x2126, 0x2126); (0x2128, 0x2128); (0x212A, 0x212D);
   (0x212F, 0x2134); (0x2139, 0x2139); (0x213C, 0x213F); (0x2145, 0x2149); (0x214E, 0x214E);
   (0x2160, 0x217F); (0x2183, 0x2184); (0x24B6, 0x24E9); (0x2C00, 0x2C7B); (0x2C7E, 0x2CE4);
   (0x2CEB, 0x2CEE); (0x2CF2, 0x2CF3); (0x2D00, 0x2D25); (0x2D27, 0x2D27); (0x2D2D, 0x2D2D);
   (0xA640, 0xA66D); (0xA680, 0xA69B); (0xA722, 0xA76F); (0xA771, 0xA787); (0xA78B, 0xA78E);
   (0xA790, 0xA7CA); (0xA7D0, 0xA7D1); (0xA7D3, 0xA7D3); (0xA7D5, 0xA7D9); (0xA7F5, 0xA7F6);
   (0xA7FA, 0xA7FA); (0xAB30, 0xAB5A); (0xAB60, 0xAB68); (0xAB70, 0xABBF); (0xFB00, 0xFB06);
   (0xFB13, 0xFB17); (0xFF21, 0xFF3A); (0xFF41, 0xFF5A); (0x10400, 0x1044F); (0x104B0, 0x104D3);
   (0x104D8, 0x104FB); (0x10570, 0x1057A); (0x1057C, 0x1058A); (0x1058C, 0x10592); (0x10594, 0x10595);
   (0x10597, 0x105A1); (0x105A3, 0x105B1); (0x105B3, 0x105B9); (0x105BB, 0x105BC); (0x10C80, 0x10CB2);
   (0x10CC0, 0x10CF2); (0x118A0, 0x118DF); (0x16E40, 0x16E7F); (0x1D400, 0x1D454); (0x1D456, 0x1D49C);
   (0x1D49E, 0x1D49F); (0x1D4A2, 0x1D4A2); (0x1D4A5, 0x1D4A6); (0x1D4A9, 0x1D4AC); (0x1D4AE, 0x1D4B9);
   (0x1D4BB, 0x1D4BB); (0x1D4BD, 0x1D4C3); (0x1D4C5, 0x1D505); (0x1D507, 0x1D50A); (0x1D50D, 0x1D514);
   (0x1D516, 0x1D51C); (0x1D51E, 0x1D539); (0x1D53B, 0x1D53E); (0x1D540, 0x1D544); (0x1D546, 0x1D546);
   (0x1D54A, 0x1D550); (0x1D552, 0x1D6A5); (0x1D6A8, 0x1D6C0); (0x1D6C2, 0x1D6DA); (0x1D6DC, 0x1D6FA);
   (0x1D6FC, 0x1D714); (0x1D716, 0x1D734); (0x1D736, 0x1D74E); (0x1D750, 0x1D76E); (0x1D770, 0x1D788);
   (0x1D78A, 0x1D7A8); (0x1D7AA, 0x1D7C2); (0x1D7C4, 0x1D7CB); (0x1DF00, 0x1DF09); (0x1DF0B, 0x1DF1E);
   (0x1E900, 0x1E943); (0x1F130, 0x1F149); (0x1F150, 0x1F169); (0x1F170, 0x1F189)
  ]%N.

(** Characters that are case-ignorable. *)
Definition case_ignorable_ranges : list (N * N) := Eval cbv in
  [
   (0x27, 0x27); (0x2E, 0x2E); (0x3A, 0x3A); (0x5E, 0x5E); (0x60, 0x60);
   (0xA8, 0xA8); (0xAD, 0xAD); (0xAF, 0xAF); (0xB4, 0xB4); (0xB7, 0xB8);
   (0x2B0, 0x36F); (0x374, 0x375); (0x37A, 0x37A); (0x384, 0x385); (0x387, 0x387);
   (0x483, 0x489); (0x559, 0x559); (0x55F, 0x55F); (0x591, 0x5BD); (0x5BF, 0x5BF);
   (0x5C1, 0x5C2); (0x5C4, 0x5C5); (0x5C7, 0x5C7); (0x5F4, 0x5F4); (0x600, 0x605);
   (0x610, 0x61A); (0x61C, 0x61C); (0x640, 0x640); (0x64B, 0x65F); (0x670, 0x670);
   (0x6D6, 0x6DD); (0x6DF, 0x6E8); (0x6EA, 0x6ED); (0x70F, 0x70F); (0x711, 0x711);
   (0x730, 0x74A); (0x7A6, 0x7B0); (0x7EB, 0x7F5); (0x7FA, 0x7FA); (0x7FD, 0x7FD);
   (0x816, 0x82D); (0x859, 0x85B); (0x888, 0x888); (0x890, 0x891); (0x898, 0x89F);
   (0x8C9, 0x902); (0x93A, 0x93A); (0x93C, 0x93C); (0x941, 0x948); (0x94D, 0x94D);
   (0x951, 0x957); (0x962, 0x963); (0x971, 0x971); (0x981, 0x981); (0x9BC, 0x9BC);
   (0x9C1, 0x9C4); (0x9CD, 0x9CD); (0x9E2, 0x9E3); (0x9FE, 0x9FE); (0xA01, 0xA02);
   (0xA3C, 0xA3C); (0xA41, 0xA42); (0xA47, 0xA48); (0xA4B, 0xA4D); (0xA51, 0xA51);
   (0xA70, 0xA71); (0xA75, 0xA75); (0xA81, 0xA82); (0xABC, 0xABC); (0xAC1, 0xAC5);
   (0xAC7, 0xAC8); (0xACD, 0xACD); (0xAE2, 0xAE3); (0xAFA, 0xAFF); (0xB01, 0xB01);
   (0xB3C, 0xB3C); (0xB3F, 0xB3F); (0xB41, 0xB44); (0xB4D, 0xB4D); (0xB55, 0xB56);
   (0xB62, 0xB63); (0xB82, 0xB82); (0xBC0, 0xBC0); (0xBCD, 0xBCD); (0xC00, 0xC00);
   (0xC04, 0xC04); (0xC3C, 0xC3C); (0xC3E, 0xC40); (0xC46, 0xC48); (0xC4A, 0xC4D);
   (0xC55, 0xC56); (0xC62, 0xC63); (0xC81, 0xC81); (0xCBC, 0xCBC); (0xCBF, 0xCBF);
   (0xCC6, 0xCC6); (0xCCC, 0xCCD); (0xCE2, 0xCE3); (0xD00, 0xD01); (0xD3B, 0xD3C);
   (0xD41, 0xD44); (0xD4D, 0xD4D); (0xD62, 0xD63); (0xD81, 0xD81); (0xDCA, 0xDCA);
   (0xDD2, 0xDD4); (0xDD6, 0xDD6); (0xE31, 0xE31); (0xE34, 0xE3A); (0xE46, 0xE4E);
   (0xEB1, 0xEB1); (0xEB4, 0xEBC); (0xEC6, 0xEC6); (0xEC8, 0xECD); (0xF18, 0xF19);
   (0xF35, 0xF35); (0xF37, 0xF37); (0xF39, 0xF39); (0xF71, 0xF7E); (0xF80, 0xF84);
   (0xF86, 0xF87); (0xF8D, 0xF97); (0xF99, 0xFBC); (0xFC6, 0xFC6); (0x102D, 0x1030);
   (0x1032, 0x1037); (0x1039, 0x103A); (0x103D, 0x103E); (0x1058, 0x1059); (0x105E, 0x1060);
   (0x1071, 0x1074); (0x1082, 0x1082); (0x1085, 0x1086); (0x108D, 0x108D); (0x109D, 0x109D);
   (0x10FC, 0x10FC); (0x135D, 0x135F); (0x1712, 0x1714); (0x1732, 0x1733); (0x1752, 0x1753);
   (0x1772, 0x1773); (0x17B4, 0x17B5); (0x17B7, 0x17BD); (0x17C6, 0x17C6); (0x17C9, 0x17D3);
   (0x17D7, 0x17D7); (0x17DD, 0x17DD); (0x180B, 0x180F); (0x1843, 0x1843); (0x1885, 0x1886);
   (0x18A9, 0x18A9); (0x1920, 0x1922); (0x1927, 0x1928); (0x1932, 0x1932); (0x1939, 0x193B);
   (0x1A17, 0x1A18); (0x1A1B, 0x1A1B); (0x1A56, 0x1A56); (0x1A58, 0x1A5E); (0x1A60, 0x1A60);
   (0x1A62, 0x1A62); (0x1A65, 0x1A6C); (0x1A73, 0x1A7C); (0x1A7F, 0x1A7F); (0x1AA7, 0x1AA7);
   (0x1AB0, 0x1ACE); (0x1B00, 0x1B03); (0x1B34, 0x1B34); (0x1B36, 0x1B3A); (0x1B3C, 0x1B3C);
   (0x1B42, 0x1B42); (0x1B6B, 0x1B73); (0x1B80, 0x1B81); (0x1BA2, 0x1BA5); (0x1BA8, 0x1BA9);
   (0x1BAB, 0x1BAD); (0x1BE6, 0x1BE6); (0x1BE8, 0x1BE9); (0x1BED, 0x1BED); (0x1BEF, 0x1BF1);
   (0x1C2C, 0x1C33); (0x1C36, 0x1C37); (0x1C78, 0x1C7D); (0x1CD0, 0x1CD2); (0x1CD4, 0x1CE0);
   (0x1CE2, 0x1CE8); (0x1CED, 0x1CED); (0x1CF4, 0x1CF4); (0x1CF8, 0x1CF9); (0x1D2C, 0x1D6A);
   (0x1D78, 0x1D78); (0x1D9B, 0x1DFF); (0x1FBD, 0x1FBD); (0x1FBF, 0x1FC1); (0x1FCD, 0x1FCF);
   (0x1FDD, 0x1FDF); (0x1FED, 0x1FEF); (0x1FFD, 0x1FFE); (0x200B, 0x200F); (0x2018, 0x2019);
   (0x2024, 0x2024); (0x2027, 0x2027); (0x202A, 0x202E); (0x2060, 0x2064); (0x2066, 0x206F);
   (0x2071, 0x2071); (0x207F, 0x207F); (0x2090, 0x209C); (0x20D0, 0x20F0); (0x2C7C, 0x2C7D);
   (0x2CEF, 0x2CF1); (0x2D6F, 0x2D6F); (0x2D7F, 0x2D7F); (0x2DE0, 0x2DFF); (0x2E2F, 0x2E2F);
   (0x3005, 0x3005); (0x302A, 0x302D); (0x3031, 0x3035); (0x303B, 0x303B); (0x3099, 0x309E);
   (0x30FC, 0x30FE); (0xA015, 0xA015); (0xA4F8, 0xA4FD); (0xA60C, 0xA60C); (0xA66F, 0xA672);
   (0xA674, 0xA67D); (0xA67F, 0xA67F); (0xA69C, 0xA69F); (0xA6F0, 0xA6F1); (0xA700, 0xA721);
   (0xA770, 0xA770); (0xA788, 0xA78A); (0xA7F2, 0xA7F4); (0xA7F8, 0xA7F9); (0xA802, 0xA802);
   (0xA806, 0xA806); (0xA80B, 0xA80B); (0xA825, 0xA826); (0xA82C, 0xA82C); (0xA8C4, 0xA8C5);
   (0xA8E0, 0xA8F1); (0xA8FF, 0xA8FF); (0xA926, 0xA92D); (0xA947, 0xA951); (0xA980, 0xA982);
   (0xA9B3, 0xA9B3); (0xA9B6, 0xA9B9); (0xA9BC, 0xA9BD); (0xA9CF, 0xA9CF); (0xA9E5, 0xA9E6);
   (0xAA29, 0xAA2E); (0xAA31, 0xAA32); (0xAA35, 0xAA36); (0xAA43, 0xAA43); (0xAA4C, 0xAA4C);
   (0xAA70, 0xAA70); (0xAA7C, 0xAA7C); (0xAAB0, 0xAAB0); (0xAAB2, 0xAAB4); (0xAAB7, 0xAAB8);
   (0xAABE, 0xAABF); (0xAAC1, 0xAAC1); (0xAADD, 0xAADD); (0xAAEC, 0xAAED); (0xAAF3, 0xAAF4);
   (0xAAF6, 0xAAF6); (0xAB5B, 0xAB5F); (0xAB69, 0xAB6B); (0xABE5, 0xABE5); (0xABE8, 0xABE8);
   (0xABED, 0xABED); (0xFB1E, 0xFB1E); (0xFBB2, 0xFBC2); (0xFE00, 0xFE0F); (0xFE13, 0xFE13);
   (0xFE20, 0xFE2F); (0xFE52, 0xFE52); (0xFE55, 0xFE55); (0xFEFF, 0xFEFF); (0xFF07, 0xFF07);
   (0xFF0E, 0xFF0E); (0xFF1A, 0xFF1A); (0xFF3E, 0xFF3E); (0xFF40, 0xFF40); (0xFF70, 0xFF70);
   (0xFF9E, 0xFF9F); (0xFFE3, 0xFFE3); (0xFFF9, 0xFFFB); (0x101FD, 0x101FD); (0x102E0, 0x102E0);
   (0x10376, 0x1037A); (0x10780, 0x10785); (0x10787, 0x107B0); (0x107B2, 0x107BA); (0x10A01, 0x10A03);
   (0x10A05, 0x10A06); (0x10A0C, 0x10A0F); (0x10A38, 0x10A3A); (0x10A3F, 0x10A3F); (0x10AE5, 0x10AE6);
   (0x10D24, 0x10D27); (0x10EAB, 0x10EAC); (0x10F46, 0x10F50); (0x10F82, 0x10F85); (0x11001, 0x11001);
   (0x11038, 0x11046); (0x11070, 0x11070); (0x11073, 0x11074); (0x1107F, 0x11081); (0x110B3, 0x110B6);
   (0x110B9, 0x110BA); (0x110BD, 0x110BD); (0x110C2, 0x110C2); (0x110CD, 0x110CD); (0x11100, 0x11102);
   (0x11127, 0x1112B); (0x1112D, 0x11134); (0x11173, 0x11173); (0x11180, 0x11181); (0x111B6, 0x111BE);
   (0x111C9, 0x111CC); (0x111CF, 0x111CF); (0x1122F, 0x11231); (0x11234, 0x11234); (0x11236, 0x11237);
   (0x1123E, 0x1123E); (0x112DF, 0x112DF); (0x112E3, 0x112EA); (0x11300, 0x11301); (0x1133B, 0x1133C);
   (0x11340, 0x11340); (0x11366, 0x1136C); (0x11370, 0x11374); (0x11438, 0x1143F); (0x11442, 0x11444);
   (0x11446, 0x11446); (0x1145E, 0x1145E); (0x114B3, 0x114B8); (0x114BA, 0x114BA); (0x114BF, 0x114C0);
   (0x114C2, 0x114C3); (0x115B2, 0x115B5); (0x115BC, 0x115BD); (0x115BF, 0x115C0); (0x115DC, 0x115DD);
   (0x11633, 0x1163A); (0x1163D, 0x1163D); (0x1163F, 0x11640); (0x116AB, 0x116AB); (0x116AD, 0x116AD);
   (0x116B0, 0x116B5); (0x116B7, 0x116B7); (0x1171D, 0x1171F); (0x11722, 0x11725); (0x11727, 0x1172B);
   (0x1182F, 0x11837); (0x11839, 0x1183A); (0x1193B, 0x1193C); (0x1193E, 0x1193E); (0x11943, 0x11943);
   (0x119D4, 0x119D7); (0x119DA, 0x119DB); (0x119E0, 0x119E0); (0x11A01, 0x11A0A); (0x11A33, 0x11A38);
   (0x11A3B, 0x11A3E); (0x11A47, 0x11A47); (0x11A51, 0x11A56); (0x11A59, 0x11A5B); (0x11A8A, 0x11A96);
   (0x11A98, 0x11A99); (0x11C30, 0x11C36); (0x11C38, 0x11C3D); (0x11C3F, 0x11C3F); (0x11C92, 0x11CA7);
   (0x11CAA, 0x11CB0); (0x11CB2, 0x11CB3); (0x11CB5, 0x11CB6); (0x11D31, 0x11D36); (0x11D3A, 0x11D3A);
   (0x11D3C, 0x11D3D); (0x11D3F, 0x11D45); (0x11D47, 0x11D47); (0x11D90, 0x11D91); (0x11D95, 0x11D95);
   (0x11D97, 0x11D97); (0x11EF3, 0x11EF4); (0x13430, 0x13438); (0x16AF0, 0x16AF4); (0x16B30, 0x16B36);
   (0x16B40, 0x16B43); (0x16F4F, 0x16F4F); (0x16F8F, 0x16F9F); (0x16FE0, 0x16FE1); (0x16FE3, 0x16FE4);
   (0x1AFF0, 0x1AFF3); (0x1AFF5, 0x1AFFB); (0x1AFFD, 0x1AFFE); (0x1BC9D, 0x1BC9E); (0x1BCA0, 0x1BCA3);
   (0x1CF00, 0x1CF2D); (0x1CF30, 0x1CF46); (0x1D167, 0x1D169); (0x1D173, 0x1D182); (0x1D185, 0x1D18B);
   (0x1D1AA, 0x1D1AD); (0x1D242, 0x1D244); (0x1DA00, 0x1DA36); (0x1DA3B, 0x1DA6C); (0x1DA75, 0x1DA75);
   (0x1DA84, 0x1DA84); (0x1DA9B, 0x1DA9F); (0x1DAA1, 0x1DAAF); (0x1E000, 0x1E006); (0x1E008, 0x1E018);
   (0x1E01B, 0x1E021); (0x1E023, 0x1E024); (0x1E026, 0x1E02A); (0x1E130, 0x1E13D); (0x1E2AE, 0x1E2AE);
   (0x1E2EC, 0x1E2EF); (0x1E8D0, 0x1E8D6); (0x1E944, 0x1E94B); (0x1F3FB, 0x1F3FF); (0xE0001, 0xE0001);
   (0xE0020, 0xE007F); (0xE0100, 0xE01EF)
  ]%N.

Definition row_entries (row : N * N * N * N) : list (N * list N) :=
  let '(first, last, step, target) := row in
  map (λ k, let d := (step * N.of_nat k)%N in ((first + d)%N, [(target + d)%N]))
      (seq 0 (S (N.to_nat ((last - first) / step)))).

(** The one mapping to more than one character: U+0130 to "i" followed by
    a combining dot above. *)
Definition lower_table : list (N * list N) :=
  (0x130%N, [0x69; 0x307]%N) :: flat_map row_entries lower_rows.

Fixpoint assoc (c : N) (table : list (N * list N)) : option (list N) :=
  match table with
  | [] => None
  | (k, out) :: rest => if (k =? c)%N then Some out else assoc c rest
  end.

Definition to_lower_full (c : N) : list N :=
  match assoc c lower_table with
  | Some out => out
  | None => [c]
  end.

Definition in_ranges (c : N) (ranges : list (N * N)) : bool :=
  existsb (λ '(first, last), (first <=? c)%N && (c <=? last)%N) ranges.

Definition is_cased (c : N) : bool := in_ranges c cased_ranges.
Definition is_case_ignorable (c : N) : bool := in_ranges c case_ignorable_ranges.

Fixpoint skip_case_ignorable (s : pystr) : pystr :=
  match s with
  | [] => []
  | c :: rest => if is_case_ignorable c then skip_case_ignorable rest else s
  end.

(** A capital sigma is final when a cased letter comes before it and none
    comes after it, case-ignorable characters aside.  [before] holds the
    characters before it, nearest first. *)
Definition final_sigma (before after : pystr) : bool :=
  match skip_case_ignorable before with
  | [] => false
  | c :: _ =>
      is_cased c
      && match skip_case_ignorable after with
         | [] => true
         | c' :: _ => negb (is_cased c')
         end
  end.

Definition capital_sigma : N := 0x3A3.
Definition small_final_sigma : N := 0x3C2.
Definition small_sigma : N := 0x3C3.

Fixpoint lower_from (before s : pystr) : pystr :=
  match s with
  | [] => []
  | c :: rest =>
      (if (c =? capital_sigma)%N
       then [if final_sigma before rest then small_final_sigma else small_sigma]
       else to_lower_full c)
      ++ lower_from (c :: before) rest
  end.

Definition lower (s : pystr) : pystr := lower_from [] s.

(** A character that [lower] leaves alone wherever it stands. *)
Definition stable (c : N) : Prop :=
  c ≠ capital_sigma ∧ to_lower_full c = [c].

Definition stable_b (c : N) : bool :=
  negb (c =? capital_sigma)%N
  && match assoc c lower_table with None => true | Some _ => false end.

(** ** bytes.lower

    A [bytes] object is a sequence of bytes; its [lower] maps the bytes
    'A'..'Z' to 'a'..'z' and leaves every other byte alone. *)
Definition lower_ascii (c : ascii) : ascii :=
  let n := nat_of_ascii c in
  if (65 <=? n)%nat && (n <=? 90)%nat then ascii_of_nat (n + 32) else c.

Fixpoint lower_bytes (b : string) : string :=
  match b with
  | EmptyString => EmptyString
  | String c rest => String (lower_ascii c) (lower_bytes rest)
  end.

(** ** Python values the notebook touches *)

(** A field of a dataset, as far as line 84 can tell values of Python's
    built-in types apart: a [str], a [bytes] object, a [bytearray] (it has
    [lower] but cannot be a member of a set), or a value without [lower]
    (None, a number, a tuple, a list, a dict). *)
Inductive field :=
  | Str (s : pystr)
  | Bytes (b : string)
  | Bytearray (b : string)
  | NoLower.

#[global] Instance field_eq_dec : EqDecision field.
Proof. solve_decision. Defined.

#[global] Instance field_countable : Countable field :=
  inj_countable'
    (λ v, match v with
          | Str s => inl (inl s)
          | Bytes b => inl (inr b)
          | Bytearray b => inr (inl b)
          | NoLower => inr (inr ())
          end)
    (λ x, match x with
          | inl (inl s) => Str s
          | inl (inr b) => Bytes b
          | inr (inl b) => Bytearray b
          | inr (inr ()) => NoLower
          end)
    (λ v, match v with
          | Str _ | Bytes _ | Bytearray _ | NoLower => eq_refl
          end).

(** The ASCII capitals 'A'..'Z', and the values that hold none of them. *)
Definition ascii_capital (c : N) : bool := (0x41 <=? c)%N && (c <=? 0x5A)%N.

Definition no_ascii_capital (v : field) : Prop :=
  match v with
  | Str s => Forall (λ c, ascii_capital c = false) s
  | Bytes b | Bytearray b =>
      Forall (λ c, ascii_capital (N_of_ascii c) = false)
             (String.list_ascii_of_string b)
  | NoLower => True
  end.

(** A dataset yielded by iterating [bd.Database(db_name)]: subscripted with
    the key ['location'] on line 84. *)
Abbreviation dataset := (gmap string field).

(** The objects built in the fifth cell; the notebook never looks inside. *)
Inductive Settings := SettingsObj (id : nat).
Inductive EcoinventRelease := ReleaseObj (id : nat).

(** ** Calls to the collaborators *)

Inductive call :=
  | ProjectsContains (name : string)
      (* name in bd.projects *)
  | DeleteProject (name : string) (delete_dir : bool)
      (* bd.projects.delete_project(name, delete_dir) *)
  | SetCurrent (name : string)
      (* bd.projects.set_current(name) *)
  | NewSettings
      (* Settings() *)
  | NewEcoinventRelease (s : Settings)
      (* EcoinventRelease(s) *)
  | ImportEcoinventRelease (version system_model : string) (lcia : bool)
      (* bi.import_ecoinvent_release(version=, system_model=, lcia=) *)
  | DatabaseIter (db_name : string)
      (* iterating bd.Database(db_name) to the end *)
  | DatabaseLen (db_name : string)
      (* len(bd.Database(db_name)) *)
  | Print (db_name : string) (has_roe : bool) (count : nat)
      (* print(db_name, has_roe, count) *)
  | UpdateEcoinventDefinitions (db_names : list string).
      (* update_ecoinvent_definitions(db_names) *)

(** What each call gives back when it returns. *)
Definition ret (c : call) : Type :=
  match c with
  | ProjectsContains _ => bool
  | DeleteProject _ _ => unit
  | SetCurrent _ => unit
  | NewSettings => Settings
  | NewEcoinventRelease _ => EcoinventRelease
  | ImportEcoinventRelease _ _ _ => unit
  | DatabaseIter _ => list dataset
  | DatabaseLen _ => nat
  | Print _ _ _ => unit
  | UpdateEcoinventDefinitions _ => unit
  end.

(** ** Exceptions *)

(** An exception raised inside a collaborator: its class and its message. *)
Inductive exc := Exc (class_name message : string).

(** How a run can be cut short.  [AssertionError] is the one raised by the
    [assert] of line 85; [KeyError], [AttributeError] and [TypeError] come
    from line 84: a dataset without 'location', a value without [lower], a
    value that cannot be hashed into the set; [ExternalError] is whatever a
    call raised instead of returning (also when that is an assertion of the
    collaborator's own). *)
Inductive failure :=
  | AssertionError
  | KeyError
  | AttributeError (attr : string)
  | TypeError
  | ExternalError (c : call) (e : exc).

#[global] Instance exc_eq_dec : EqDecision exc.
Proof. solve_decision. Defined.

#[global] Instance Settings_eq_dec : EqDecision Settings.
Proof. solve_decision. Defined.

#[global] Instance call_eq_dec : EqDecision call.
Proof. solve_decision. Defined.

#[global] Instance failure_eq_dec : EqDecision failure.
Proof. solve_decision. Defined.

(** ** Programs over the calls *)

Inductive prog (A : Type) : Type :=
  | Ret (a : A)
  | Raise (f : failure)
  | Call (c : call) (k : ret c → prog A).
Arguments Ret {A} a.
Arguments Raise {A} f.
Arguments Call {A} c k.

Fixpoint bind {A B} (p : prog A) (f : A → prog B) : prog B :=
  match p with
  | Ret a => f a
  | Raise e => Raise e
  | Call c k => Call c (λ r, bind (k r) f)
  end.

Definition call_ (c : call) : prog (ret c) := Call c Ret.

Definition lift {A} (r : failure + A) : prog A :=
  match r with
  | inl f => Raise f
  | inr a => Ret a
  end.

(** [assert b] *)
Definition assert_ (b : bool) : prog unit :=
  if b then Ret tt else Raise AssertionError.

(** [for x in xs: body] *)
Fixpoint for_ {X} (xs : list X) (body : X → prog unit) : prog unit :=
  match xs with
  | [] => Ret tt
  | x :: rest => bind (body x) (λ _, for_ rest body)
  end.

(** The notation [x ← p; q] and [p;; q] of stdpp, for sequencing statements. *)
#[global] Instance prog_ret : MRet prog := λ A a, Ret a.
#[global] Instance prog_bind : MBind prog := λ A B f p, bind p f.

(** ** The notebook, cell by cell *)

Module Notebook.

(** Line 21: [delete = True]. *)
Definition cell_delete : prog bool := Ret true.

(** Lines 30-31.  [and] evaluates its right operand only when [delete] is
    true. *)
Definition cell_delete_project (delete : bool) : prog unit :=
  if delete then
    present ← call_ (ProjectsContains "RoW generation");
    if (present : bool)
    then call_ (DeleteProject "RoW generation" true)
    else Ret tt
  else Ret tt.

(** Line 40. *)
Definition cell_set_current : prog unit :=
  call_ (SetCurrent "RoW generation").

(** Lines 49-50. *)
Definition cell_release : prog (Settings * EcoinventRelease) :=
  my_settings ← call_ NewSettings;
  release ← call_ (NewEcoinventRelease my_settings);
  Ret (my_settings, release : EcoinventRelease).

(** Line 59: [VERSION = "3.8"]. *)
Definition cell_version : prog string := Ret "3.8".

(** The tuple written out on lines 68, 82 and 104. *)
Definition system_models : list string := ["cutoff"; "apos"; "consequential"].

(** Lines 68-73. *)
Definition cell_import (VERSION : string) : prog unit :=
  for_ system_models (λ system_model,
    call_ (ImportEcoinventRelease VERSION system_model false)).

(** [f"ecoinvent-{VERSION}-{system_model}"], lines 83 and 103. *)
Definition db_name_of (VERSION system_model : string) : string :=
  "ecoinvent-" +:+ VERSION +:+ "-" +:+ system_model.

(** [v.lower()], as a value that can be a member of a set. *)
Definition lowered (v : field) : failure + field :=
  match v with
  | Str s => inr (Str (lower s))
  | Bytes b => inr (Bytes (lower_bytes b))
  | Bytearray _ => inl TypeError
  | NoLower => inl (AttributeError "lower")
  end.

(** [ds['location'].lower()] *)
Definition location_lower (ds : dataset) : failure + field :=
  match ds !! "location" with
  | None => inl KeyError
  | Some v => lowered v
  end.

(** Line 84: [{ds['location'].lower() for ds in ...}], datasets visited in
    the order the database yields them. *)
Fixpoint locations_of (dss : list dataset) : failure + gset field :=
  match dss with
  | [] => inr ∅
  | ds :: rest =>
      match location_lower ds with
      | inl f => inl f
      | inr s =>
          match locations_of rest with
          | inl f => inl f
          | inr acc => inr ({[ s ]} ∪ acc)
          end
      end
  end.

(** Truth value of a set: true unless empty. *)
Definition truthy (locations : gset field) : bool :=
  bool_decide (locations ≠ ∅).

(** ['roe' in locations] *)
Definition has_roe (locations : gset field) : bool :=
  bool_decide (Str "roe" ∈ locations).

(** Lines 82-86. *)
Definition cell_verify (VERSION : string) : prog unit :=
  for_ system_models (λ system_model,
    let db_name := db_name_of VERSION system_model in
    dss ← call_ (DatabaseIter db_name);
    locations ← lift (locations_of dss);
    assert_ (truthy locations);;
    count ← call_ (DatabaseLen db_name);
    call_ (Print db_name (has_roe locations) count)).

(** Lines 102-105. *)
Definition cell_update (VERSION : string) : prog unit :=
  call_ (UpdateEcoinventDefinitions (map (db_name_of VERSION) system_models)).

(** The cells after [delete] is bound, run top to bottom. *)
Definition cells_from (delete : bool) : prog unit :=
  cell_delete_project delete;;
  cell_set_current;;
  _ ← cell_release;
  VERSION ← cell_version;
  cell_import VERSION;;
  cell_verify VERSION;;
  cell_update VERSION.

Definition notebook : prog unit :=
  delete ← cell_delete;
  cells_from delete.

End Notebook.

(** ** Executions *)

(** One step of an execution: a call, and how it ended. *)
Inductive event :=
  | Returned (c : call) (r : ret c)
  | Raised (c : call) (e : exc).

Definition called (ev : event) : call :=
  match ev with
  | Returned c _ => c
  | Raised c _ => c
  end.

Definition calls (t : list event) : list call := map called t.

(** The collaborators of the overview, numbered in the order they are listed:
    1 project store, 2 release-access client, 3 importer, 4 verification
    step, 5 region-definition updater. *)
Definition stage (c : call) : nat :=
  match c with
  | ProjectsContains _ | DeleteProject _ _ | SetCurrent _ => 1
  | NewSettings | NewEcoinventRelease _ => 2
  | ImportEcoinventRelease _ _ _ => 3
  | DatabaseIter _ | DatabaseLen _ | Print _ _ _ => 4
  | UpdateEcoinventDefinitions _ => 5
  end.


Definition import_args (c : call) : option (string * string * bool) :=
  match c with
  | ImportEcoinventRelease version system_model lcia =>
      Some (version, system_model, lcia)
  | _ => None
  end.

Definition update_args (c : call) : option (list string) :=
  match c with
  | UpdateEcoinventDefinitions db_names => Some db_names
  | _ => None
  end.

Definition delete_args (c : call) : option (string * bool) :=
  match c with
  | DeleteProject name delete_dir => Some (name, delete_dir)
  | _ => None
  end.

(** A database read that returned: the name asked for and the datasets
    yielded. *)
Definition read_of (ev : event) : option (string * list dataset) :=
  match ev with
  | Returned c r =>
      match c return ret c → option (string * list dataset) with
      | DatabaseIter db_name => λ dss, Some (db_name, dss)
      | _ => λ _, None
      end r
  | Raised _ _ => None
  end.

(** A record count that was read back. *)
Definition count_of (ev : event) : option (string * nat) :=
  match ev with
  | Returned c r =>
      match c return ret c → option (string * nat) with
      | DatabaseLen db_name => λ n, Some (db_name, n)
      | _ => λ _, None
      end r
  | Raised _ _ => None
  end.

Definition imports (t : list event) := omap import_args (calls t).
Definition updates (t : list event) := omap update_args (calls t).
Definition deletions (t : list event) := omap delete_args (calls t).
Definition reads (t : list event) := omap read_of t.
Definition counts (t : list event) := omap count_of t.

(** The calls that delete or select a project, in the order they were made. *)
Inductive project_op :=
  | Deleted (name : string)
  | Selected (name : string).

Definition project_op_of (c : call) : option project_op :=
  match c with
  | DeleteProject name _ => Some (Deleted name)
  | SetCurrent name => Some (Selected name)
  | _ => None
  end.

Definition project_ops (t : list event) : list project_op :=
  omap project_op_of (calls t).

Record outcome (W A : Type) := Outcome {
  trace : list event;
  final : W;
  result : failure + A;
}.
Arguments Outcome {W A} trace final result.
Arguments trace {W A} o.
Arguments final {W A} o.
Arguments result {W A} o.

(** The collaborators, as seen from the notebook: given the state of the
    world outside, a call either raises or returns a value and a new state. *)
Definition handler (W : Type) : Type := ∀ c : call, W → exc + (ret c * W).

(** Running a program: calls go to the handler one after the other; the first
    exception, from a call or from the program itself, ends the run. *)
Fixpoint run {W A} (h : handler W) (p : prog A) (w : W) : outcome W A :=
  match p with
  | Ret a => Outcome [] w (inr a)
  | Raise f => Outcome [] w (inl f)
  | Call c k =>
      match h c w with
      | inl e => Outcome [Raised c e] w (inl (ExternalError c e))
      | inr (r, w') =>
          match run h (k r) w' with
          | Outcome t w'' res => Outcome (Returned c r :: t) w'' res
          end
      end
  end.

Definition completed {W A} (o : outcome W A) : Prop :=
  match result o with
  | inr _ => True
  | inl _ => False
  end.

(** The stage of the call that raised, when a call ended the run. *)
Definition failed_stage {W A} (o : outcome W A) : option nat :=
  match result o with
  | inl (ExternalError c _) => Some (stage c)
  | _ => None
  end.

(** ** Stages

    [staged lo hi p]: along every path through [p] the stages of the calls
    never decrease, and all lie between [lo] and [hi]. *)

Inductive staged {A} (lo hi : nat) : prog A → Prop :=
  | staged_ret a : staged lo hi (Ret a)
  | staged_raise f : staged lo hi (Raise f)
  | staged_call c k :
      lo ≤ stage c ≤ hi →
      (∀ r, staged (stage c) hi (k r)) →
      staged lo hi (Call c k).

(** ** A small world to run the notebook in

    A stand-in for the collaborators, to run the notebook on examples: a
    project store, the datasets a release holds for each system model, and
    the databases imported so far.  No theorem about all runs depends on
    it. *)
Module Sim.

Record world := World {
  projects : gset string;
  current : option string;
  archive : gmap string (list dataset);
  databases : gmap string (list dataset);
  printed : list (string * bool * nat);
  definitions : list (list string);
}.

Definition stored (w : world) (db_name : string) : list dataset :=
  default [] (databases w !! db_name).

Definition sim : handler world := λ c,
  match c return world → exc + (ret c * world) with
  | ProjectsContains name => λ w,
      inr (bool_decide (name ∈ projects w), w)
  | DeleteProject name _ => λ w,
      if decide (name ∈ projects w)
      then inr (tt, World (projects w ∖ {[ name ]}) (current w) (archive w) ∅
                          (printed w) (definitions w))
      else inl (Exc "ValueError" "not a project")
  | SetCurrent name => λ w,
      inr (tt, World ({[ name ]} ∪ projects w) (Some name) (archive w)
                     (databases w) (printed w) (definitions w))
  | NewSettings => λ w, inr (SettingsObj 0, w)
  | NewEcoinventRelease _ => λ w, inr (ReleaseObj 0, w)
  | ImportEcoinventRelease version system_model _ => λ w,
      match archive w !! system_model with
      | None => inl (Exc "ValueError" "no such release")
      | Some dss =>
          inr (tt, World (projects w) (current w) (archive w)
                         (<[Notebook.db_name_of version system_model := dss]>
                            (databases w))
                         (printed w) (definitions w))
      end
  | DatabaseIter db_name => λ w, inr (stored w db_name, w)
  | DatabaseLen db_name => λ w, inr (length (stored w db_name), w)
  | Print db_name has_roe count => λ w,
      inr (tt, World (projects w) (current w) (archive w) (databases w)
                     (printed w ++ [(db_name, has_roe, count)]) (definitions w))
  | UpdateEcoinventDefinitions db_names => λ w,
      inr (tt, World (projects w) (current w) (archive w) (databases w)
                     (printed w) (definitions w ++ [db_names]))
  end.

Definition ds (location : pystr) : dataset := {[ "location" := Str location ]}.

(** A release with a few datasets under every system model. *)
Definition full_archive : gmap string (list dataset) :=
  {[ "cutoff" := [ds "CH"; ds "RoW"; ds "GLO"];
     "apos" := [ds "CH"; ds "RoE"];
     "consequential" := [ds "GLO"] ]}.

(** A release whose "apos" variant holds no dataset. *)
Definition hollow_archive : gmap string (list dataset) :=
  <["apos" := []]> full_archive.

(** First run on a machine: only the default project exists. *)
Definition fresh : world :=
  World {[ "default" ]} (Some "default") full_archive ∅ [] [].

(** A later run: the project is there from last time. *)
Definition rerun : world :=
  World {[ "default"; "RoW generation" ]} (Some "RoW generation")
        full_archive ∅ [] [].

Definition hollow : world :=
  World {[ "default" ]} (Some "default") hollow_archive ∅ [] [].

End Sim.

Import Notebook.

(** ** Datasets that line 84 accepts *)

(** A dataset whose 'location' is there and is a [str] or a [bytes] object:
    the values that line 84 can lower-case and put into the set. *)
Definition has_location (ds : dataset) : Prop :=
  (∃ loc, ds !! "location" = Some (Str loc))
  ∨ (∃ b, ds !! "location" = Some (Bytes b)).

(** The body of the loop of lines 82-86, for one system model. *)
Definition verify_body (VERSION system_model : string) : prog unit :=
  let db_name := db_name_of VERSION system_model in
  dss ← call_ (DatabaseIter db_name);
  locations ← lift (locations_of dss);
  assert_ (truthy locations);;
  count ← call_ (DatabaseLen db_name);
  call_ (Print db_name (has_roe locations) count).

(** A world in which the "cutoff" and "apos" databases of version 3.9 are
    already there. *)
Definition stocked : Sim.world :=
  Sim.World {[ "default" ]} (Some "default") Sim.full_archive
            {[ "ecoinvent-3.9-cutoff" := [Sim.ds "CH"; Sim.ds "RoE"];
               "ecoinvent-3.9-apos" := [Sim.ds "GLO"] ]}
            [] [].

(** The settings objects that [Settings()] returned in a run. *)
Definition settings_of (ev : event) : option Settings :=
  match ev with
  | Returned c r =>
      match c return ret c → option Settings with
      | NewSettings => λ s, Some s
      | _ => λ _, None
      end r
  | Raised _ _ => None
  end.

Definition built_settings (t : list event) : list Settings := omap settings_of t.

Definition membership_tests (t : list event) : list string :=
  omap (λ c, match c with ProjectsContains name => Some name | _ => None end)
       (calls t).

Definition prints (t : list event) : list (string * bool * nat) :=
  omap (λ c, match c with
             | Print db_name flag count => Some (db_name, flag, count)
             | _ => None
             end)
       (calls t).



(** ** Lower-casing twice *)

Lemma stable_b_stable c : stable_b c = true → stable c.
Proof.
  unfold stable_b, stable, to_lower_full.
  intros [Hsigma Hassoc]%andb_true_iff. split.
  - intros ->. by rewrite N.eqb_refl in Hsigma.
  - by destruct (assoc c lower_table).
Qed.

Lemma assoc_Some c table out : assoc c table = Some out → (c, out) ∈ table.
Proof.
  induction table as [|[k out'] table IH]; cbn; [done|].
  destruct (N.eqb_spec k c) as [->|_].
  - intros [= ->]. left.
  - intros ?. right. auto.
Qed.

(** No mapping of the table gives a capital sigma or a character that the
    table maps further. *)
Lemma lower_table_stable :
  forallb (λ '(_, out), forallb stable_b out) lower_table = true.
Proof. vm_compute. reflexivity. Qed.

Lemma to_lower_full_stable c : c ≠ capital_sigma → Forall stable (to_lower_full c).
Proof.
  intros Hc. unfold to_lower_full.
  destruct (assoc c lower_table) as [out|] eqn:Hassoc.
  - apply assoc_Some in Hassoc.
    pose proof lower_table_stable as Htable.
    rewrite forallb_forall in Htable.
    apply list_elem_of_In, Htable in Hassoc.
    rewrite forallb_forall in Hassoc.
    apply Forall_forall. intros c' Hc'%list_elem_of_In.
    by apply stable_b_stable, Hassoc.
  - constructor; [|constructor]. split; [done|].
    unfold to_lower_full. by rewrite Hassoc.
Qed.

Lemma lower_from_stable before s : Forall stable (lower_from before s).
Proof.
  revert before. induction s as [|c s IH]; intros before; cbn [lower_from].
  - constructor.
  - apply Forall_app. split; [|apply IH].
    destruct (N.eqb_spec c capital_sigma) as [->|Hc].
    + constructor; [|constructor].
      destruct (final_sigma before s); by apply stable_b_stable.
    + by apply to_lower_full_stable.
Qed.

Lemma lower_from_id before s : Forall stable s → lower_from before s = s.
Proof.
  intros Hs. revert before.
  induction Hs as [|c s [Hc Hlow] _ IH]; intros before; cbn [lower_from]; [done|].
  apply N.eqb_neq in Hc. by rewrite Hc, Hlow, IH.
Qed.

(** [s.lower().lower() == s.lower()] *)
Lemma lower_idemp s : lower (lower s) = lower s.
Proof. apply lower_from_id, lower_from_stable. Qed.

Lemma lower_ascii_idemp c : lower_ascii (lower_ascii c) = lower_ascii c.
Proof. by destruct c as [[] [] [] [] [] [] [] []]. Qed.

(** [b.lower().lower() == b.lower()] *)
Lemma lower_bytes_idemp b : lower_bytes (lower_bytes b) = lower_bytes b.
Proof.
  induction b as [|c b IH]; [done|].
  cbn [lower_bytes]. by rewrite lower_ascii_idemp, IH.
Qed.

(** ** No capital is left *)

Lemma capitals_not_stable :
  forallb (λ n, negb (bool_decide (to_lower_full (N.of_nat n) = [N.of_nat n])))
          (seq 65 26) = true.
Proof. vm_compute. reflexivity. Qed.

Lemma stable_no_capital c : stable c → ascii_capital c = false.
Proof.
  intros [_ Hlow]. destruct (ascii_capital c) eqn:Hc; [|done].
  apply andb_true_iff in Hc as [Hlo%N.leb_le Hhi%N.leb_le].
  pose proof capitals_not_stable as Htable.
  rewrite forallb_forall in Htable.
  specialize (Htable (N.to_nat c)).
  rewrite N2Nat.id in Htable.
  rewrite (bool_decide_eq_true_2 _ Hlow) in Htable.
  discriminate Htable. apply in_seq. lia.
Qed.

Lemma lower_no_capital s : Forall (λ c, ascii_capital c = false) (lower s).
Proof.
  eapply Forall_impl; [apply lower_from_stable|]. apply stable_no_capital.
Qed.

Lemma lower_ascii_no_capital c :
  ascii_capital (N_of_ascii (lower_ascii c)) = false.
Proof. by destruct c as [[] [] [] [] [] [] [] []]. Qed.

Lemma lower_bytes_no_capital b :
  Forall (λ c, ascii_capital (N_of_ascii c) = false)
         (String.list_ascii_of_string (lower_bytes b)).
Proof.
  induction b as [|c b IH]; cbn; constructor; [apply lower_ascii_no_capital|done].
Qed.

(** ** The set comprehension of line 84 *)

Lemma lowered_inr v v' :
  lowered v = inr v' ↔
  (∃ s, v = Str s ∧ v' = Str (lower s))
  ∨ (∃ b, v = Bytes b ∧ v' = Bytes (lower_bytes b)).
Proof. destruct v; cbn; naive_solver. Qed.

(** Lower-casing what was lower-cased changes nothing. *)
Lemma lowered_idemp v v' : lowered v = inr v' → lowered v' = inr v'.
Proof.
  intros [(s & -> & ->)|(b & -> & ->)]%lowered_inr; cbn.
  - by rewrite lower_idemp.
  - by rewrite lower_bytes_idemp.
Qed.

(** What was lower-cased holds no ASCII capital. *)
Lemma lowered_no_capital v v' : lowered v = inr v' → no_ascii_capital v'.
Proof.
  intros [(s & -> & ->)|(b & -> & ->)]%lowered_inr; cbn.
  - apply lower_no_capital.
  - apply lower_bytes_no_capital.
Qed.

Lemma location_lower_inr ds v :
  location_lower ds = inr v ↔
  ∃ loc, ds !! "location" = Some loc ∧ lowered loc = inr v.
Proof.
  unfold location_lower. destruct (ds !! "location") as [loc|]; naive_solver.
Qed.

Lemma location_lower_str ds s :
  location_lower ds = inr (Str s) ↔
  ∃ loc, ds !! "location" = Some (Str loc) ∧ s = lower loc.
Proof.
  rewrite location_lower_inr. setoid_rewrite lowered_inr. naive_solver.
Qed.

Lemma locations_of_cons ds dss acc :
  locations_of (ds :: dss) = inr acc ↔
  ∃ s rest, location_lower ds = inr s ∧ locations_of dss = inr rest
            ∧ acc = {[ s ]} ∪ rest.
Proof.
  cbn [locations_of].
  destruct (location_lower ds) as [f|s]; [naive_solver|].
  destruct (locations_of dss) as [f|rest]; naive_solver.
Qed.

Lemma elem_of_locations_of dss acc s :
  locations_of dss = inr acc →
  s ∈ acc ↔ ∃ ds, ds ∈ dss ∧ location_lower ds = inr s.
Proof.
  revert acc. induction dss as [|ds dss IH]; intros acc.
  - intros [= <-]. set_solver.
  - intros (s' & rest & Hds & Hrest & ->)%locations_of_cons.
    rewrite elem_of_union, elem_of_singleton, (IH _ Hrest).
    split.
    + intros [->|(ds' & ? & ?)]; [exists ds | exists ds']; set_solver.
    + intros (ds' & [->|?]%elem_of_cons & Hs); [left; congruence | right; eauto].
Qed.

(** The comprehension fails only on a dataset without a location, or with
    one that has no [lower] or cannot be hashed. *)
Lemma locations_of_failure dss f :
  locations_of dss = inl f →
  f = KeyError ∨ f = AttributeError "lower" ∨ f = TypeError.
Proof.
  induction dss as [|ds dss IH]; [done|]. cbn [locations_of].
  unfold location_lower at 1.
  destruct (ds !! "location") as [[loc|b|b|]|]; cbn; [| |naive_solver..].
  all: destruct (locations_of dss); naive_solver.
Qed.

(** A database without datasets is the only one whose set is empty. *)
Lemma locations_of_empty dss : locations_of dss = inr ∅ ↔ dss = [].
Proof.
  split; [|by intros ->].
  destruct dss as [|ds dss]; [done|].
  intros (s & rest & _ & _ & Hempty)%locations_of_cons. set_solver.
Qed.

(** ** Running programs in sequence *)

Section run.
Context {W : Type} (h : handler W).

Lemma run_bind {A B} (p : prog A) (f : A → prog B) w :
  run h (p ≫= f) w =
    let o := run h p w in
    match result o with
    | inl e => Outcome (trace o) (final o) (inl e)
    | inr a =>
        let o' := run h (f a) (final o) in
        Outcome (trace o ++ trace o') (final o') (result o')
    end.
Proof.
  revert w. induction p as [a|e|c k IH]; intros w; cbn.
  - by destruct (run h (f a) w).
  - done.
  - destruct (h c w) as [e|[r w']]; [done|].
    change (bind (k r) f) with (k r ≫= f). rewrite IH.
    destruct (run h (k r) w') as [t w'' [e|a]]; cbn; [done|].
    by destruct (run h (f a) w'').
Qed.

Lemma trace_bind {A B} (p : prog A) (f : A → prog B) w :
  trace (run h (p ≫= f) w) =
    trace (run h p w) ++
    match result (run h p w) with
    | inl _ => []
    | inr a => trace (run h (f a) (final (run h p w)))
    end.
Proof.
  rewrite run_bind. cbn.
  destruct (result (run h p w)); cbn; by rewrite ?app_nil_r.
Qed.

Lemma result_bind {A B} (p : prog A) (f : A → prog B) w :
  result (run h (p ≫= f) w) =
    match result (run h p w) with
    | inl e => inl e
    | inr a => result (run h (f a) (final (run h p w)))
    end.
Proof. rewrite run_bind. cbn. by destruct (result (run h p w)). Qed.

Lemma final_bind {A B} (p : prog A) (f : A → prog B) w :
  final (run h (p ≫= f) w) =
    match result (run h p w) with
    | inl e => final (run h p w)
    | inr a => final (run h (f a) (final (run h p w)))
    end.
Proof. rewrite run_bind. cbn. by destruct (result (run h p w)). Qed.

(** Nothing catches an exception: a call that raises is the last event of
    the run and its exception is the run's result. *)
Lemma raised_aborts {A} (p : prog A) w c e :
  Raised c e ∈ trace (run h p w) →
  result (run h p w) = inl (ExternalError c e)
  ∧ last (trace (run h p w)) = Some (Raised c e).
Proof.
  revert w. induction p as [a|f|c' k IH]; intros w; cbn.
  - by intros ?%elem_of_nil.
  - by intros ?%elem_of_nil.
  - destruct (h c' w) as [e'|[r w']]; cbn.
    + by intros [= -> ->]%list_elem_of_singleton.
    + specialize (IH r w'). destruct (run h (k r) w') as [t w'' res]; cbn in *.
      intros [?|Hin]%elem_of_cons; [done|].
      destruct (IH Hin) as [-> Hlast]. split; [done|].
      destruct t; [done|]. by rewrite last_cons, Hlast.
Qed.

End run.

(** ** Stages of a run *)

Lemma staged_weaken {A} lo hi lo' hi' (p : prog A) :
  staged lo hi p → lo' ≤ lo → hi ≤ hi' → staged lo' hi' p.
Proof.
  intros Hp. revert lo'. induction Hp as [| |lo hi c k ? ? IH]; intros lo' ??.
  - constructor.
  - constructor.
  - constructor; [lia|]. intros r. by apply IH.
Qed.

Lemma staged_bind {A B} lo mid hi (p : prog A) (f : A → prog B) :
  lo ≤ mid ≤ hi →
  staged lo mid p → (∀ a, staged mid hi (f a)) → staged lo hi (p ≫= f).
Proof.
  intros [Hlo Hhi] Hp Hf. revert Hlo.
  induction Hp as [lo mid a|lo mid e|lo mid c k ? ? IH]; intros Hlo.
  - apply staged_weaken with mid hi; [apply Hf|lia..].
  - constructor.
  - constructor; [lia|]. intros r. apply IH; [done..|lia].
Qed.

Lemma staged_call_ lo hi c : lo ≤ stage c ≤ hi → staged lo hi (call_ c).
Proof. intros ?. constructor; [done|]. intros r. constructor. Qed.

(** In a run of a staged program the stages form a non-decreasing
    sequence, starting no lower than [lo]. *)
Lemma staged_sorted {A} lo hi (p : prog A) {W} (h : handler W) w :
  staged lo hi p →
  Sorted le (lo :: map stage (calls (trace (run h p w)))).
Proof.
  intros Hp. revert w. induction Hp as [| |lo hi c k [??] ? IH]; intros w; cbn.
  - by repeat constructor.
  - by repeat constructor.
  - destruct (h c w) as [e|[r w']]; cbn.
    + by repeat constructor.
    + specialize (IH r w'). destruct (run h (k r) w') as [t w'' res]; cbn in *.
      constructor; [done|]. by constructor.
Qed.

Lemma staged_for {X} n (xs : list X) (body : X → prog unit) :
  (∀ x, staged n n (body x)) → staged n n (for_ xs body).
Proof.
  intros Hbody. induction xs as [|x xs IH]; cbn.
  - constructor.
  - apply (staged_bind n n n); [lia|apply Hbody|done].
Qed.

Ltac staged_calls :=
  repeat (constructor; [cbn; lia|]; intros ?); constructor.

(** Each cell talks to one collaborator only. *)
Lemma staged_cell_delete_project delete : staged 1 1 (cell_delete_project delete).
Proof.
  destruct delete; [|constructor].
  constructor; [cbn; lia|]. intros [|]; staged_calls.
Qed.

Lemma staged_cell_set_current : staged 1 1 cell_set_current.
Proof. staged_calls. Qed.

Lemma staged_cell_release : staged 2 2 cell_release.
Proof. staged_calls. Qed.

Lemma staged_cell_import VERSION : staged 3 3 (cell_import VERSION).
Proof. apply staged_for. intros sm. staged_calls. Qed.

Lemma staged_cell_verify VERSION : staged 4 4 (cell_verify VERSION).
Proof.
  apply staged_for. intros sm. cbn zeta.
  constructor; [cbn; lia|]. intros dss. cbn.
  destruct (locations_of dss) as [f|locations]; cbn; [constructor|].
  destruct (truthy locations); cbn; staged_calls.
Qed.

Lemma staged_cell_update VERSION : staged 5 5 (cell_update VERSION).
Proof. staged_calls. Qed.

Lemma staged_cells_from delete : staged 1 5 (cells_from delete).
Proof.
  unfold cells_from.
  apply (staged_bind 1 1 5); [lia|apply staged_cell_delete_project|]. intros _.
  apply (staged_bind 1 1 5); [lia|apply staged_cell_set_current|]. intros _.
  apply (staged_bind 1 2 5); [lia| |].
  { apply staged_weaken with 2 2; [apply staged_cell_release|lia..]. }
  intros _.
  apply (staged_bind 2 2 5); [lia|constructor|]. intros VERSION.
  apply (staged_bind 2 3 5); [lia| |].
  { apply staged_weaken with 3 3; [apply staged_cell_import|lia..]. }
  intros _.
  apply (staged_bind 3 4 5); [lia| |].
  { apply staged_weaken with 4 4; [apply staged_cell_verify|lia..]. }
  intros _.
  apply staged_weaken with 5 5; [apply staged_cell_update|lia..].
Qed.

(** ** Running the notebook against unknown collaborators

    [execute h] follows the notebook call by call: at each call it splits on
    whether the handler raises or returns, at line 84 on what the
    comprehension gives, at line 85 on the truth of the set.  Each branch
    ends with the trace and the result of the run it describes. *)

Ltac unfold_cells :=
  unfold notebook, cells_from, cell_delete, cell_delete_project,
    cell_set_current, cell_release, cell_version, cell_import, cell_verify,
    cell_update, system_models, call_, assert_ in *.

Ltac execute_step h Hrun :=
  match type of Hrun with
  | context [h ?c ?w] =>
      let E := fresh "Hcall" in
      destruct (h c w) as [?e | [?r ?w]] eqn:E in Hrun |- *
  | context [lift (locations_of ?dss)] =>
      let E := fresh "Hlocs" in
      destruct (locations_of dss) as [?f | ?locations] eqn:E in Hrun |- *
  | context [if truthy ?s then _ else _] =>
      let E := fresh "Htruthy" in destruct (truthy s) eqn:E in Hrun |- *
  | context [if ?b then _ else _] => is_var b; destruct b
  end.

Ltac execute h :=
  cbn zeta;
  let Hrun := fresh "Hrun" in
  match goal with
  | |- context [run h ?p ?w] =>
      let t := fresh "t" in
      let wf := fresh "wf" in
      let res := fresh "res" in
      destruct (run h p w) as [t wf res] eqn:Hrun;
      cbn [trace final result]
  end;
  unfold_cells; cbn -[truthy has_roe locations_of] in Hrun;
  repeat (execute_step h Hrun; cbn -[truthy has_roe locations_of] in Hrun);
  injection Hrun as <- <- <-; cbn -[truthy has_roe locations_of] in *.

(** ** The import loop (lines 68-73) *)

(** A single call, run on its own. *)
Lemma run_call_ {W} (h : handler W) c w :
  run h (call_ c) w =
    match h c w with
    | inl e => Outcome [Raised c e] w (inl (ExternalError c e))
    | inr (r, w') => Outcome [Returned c r] w' (inr r)
    end.
Proof. unfold call_. cbn. by destruct (h c w) as [e|[r w']]. Qed.

(** X6.  The loop of lines 68-73, over any version and any tuple of system
    models, makes one import call per element of the tuple, in order, each
    with that version and [lcia=False], and nothing else; it stops at the
    first call that raises, and a loop that completes has made them all. *)
Theorem X6_import_loop_once_per_model {W} (h : handler W) VERSION models w :
  let o := run h (for_ models (λ system_model,
                     call_ (ImportEcoinventRelease VERSION system_model false)))
               w in
  calls (trace o) `prefix_of`
    map (λ system_model, ImportEcoinventRelease VERSION system_model false)
        models
  ∧ (completed o →
     calls (trace o) =
       map (λ system_model, ImportEcoinventRelease VERSION system_model false)
           models).
Proof.
  cbn zeta. revert w. induction models as [|sm models IH]; intros w.
  - split; [by exists []|done].
  - cbn [for_ map]. unfold completed.
    change (bind ?p ?f) with (p ≫= f). rewrite trace_bind, result_bind.
    rewrite (run_call_ h (ImportEcoinventRelease VERSION sm false)).
    destruct (h _ w) as [e|[[] w']]; cbn -[for_].
    + split; [by eexists|done].
    + destruct (IH w') as [Hprefix Hdone]. split.
      * by apply prefix_cons.
      * intros Hres. f_equal. by apply Hdone.
Qed.

Lemma X6_import_loop_once_per_model_witness :
  completed (run Sim.sim
               (for_ ["apos"; "cutoff"] (λ system_model,
                  call_ (ImportEcoinventRelease "3.9" system_model false)))
               Sim.fresh)
  ∧ calls (trace (run Sim.sim
               (for_ ["apos"; "cutoff"] (λ system_model,
                  call_ (ImportEcoinventRelease "3.9" system_model false)))
               Sim.fresh))
    = [ImportEcoinventRelease "3.9" "apos" false;
       ImportEcoinventRelease "3.9" "cutoff" false].
Proof.
  assert (completed (run Sim.sim
               (for_ ["apos"; "cutoff"] (λ system_model,
                  call_ (ImportEcoinventRelease "3.9" system_model false)))
               Sim.fresh)) as Hok by (vm_compute; exact I).
  split; [exact Hok|].
  exact (proj2 (X6_import_loop_once_per_model
                  Sim.sim "3.9" ["apos"; "cutoff"] Sim.fresh) Hok).
Defined.

(** C1.  The notebook calls [bi.import_ecoinvent_release] once per system
    model of the tuple ("cutoff", "apos", "consequential"), in that order,
    each time with version "3.8", the system model, and [lcia=False]: in any
    run the import calls made so far are an initial part of that list, and
    unless a call to the project store, the release client or the importer
    itself raised, they are the whole list. *)
Theorem C1_import_once_per_system_model {W} (h : handler W) w :
  let o := run h notebook w in
  imports (trace o) `prefix_of`
    [("3.8", "cutoff", false); ("3.8", "apos", false);
     ("3.8", "consequential", false)]
  ∧ ((∀ n, failed_stage o = Some n → 3 < n) →
     imports (trace o) =
       [("3.8", "cutoff", false); ("3.8", "apos", false);
        ("3.8", "consequential", false)]).
Proof.
  unfold failed_stage. execute h.
  all: split; [by eexists|intros Hfail].
  all: first [done | by (exfalso; specialize (Hfail _ eq_refl); cbn in Hfail; lia)].
Qed.

Lemma C1_import_once_per_system_model_witness :
  (∀ n, failed_stage (run Sim.sim notebook Sim.fresh) = Some n → 3 < n)
  ∧ imports (trace (run Sim.sim notebook Sim.fresh)) =
      [("3.8", "cutoff", false); ("3.8", "apos", false);
       ("3.8", "consequential", false)].
Proof.
  assert (∀ n, failed_stage (run Sim.sim notebook Sim.fresh) = Some n → 3 < n)
    as Hok by (vm_compute; discriminate).
  split; [exact Hok|].
  exact (proj2 (C1_import_once_per_system_model Sim.sim Sim.fresh) Hok).
Defined.

(** ** Truth of a set *)

Lemma truthy_true locations : truthy locations = true ↔ locations ≠ ∅.
Proof. unfold truthy. by rewrite bool_decide_eq_true. Qed.

Lemma truthy_false locations : truthy locations = false ↔ locations = ∅.
Proof.
  unfold truthy. rewrite bool_decide_eq_false.
  split; [apply dec_stable|intros -> Hne; by apply Hne].
Qed.

(** ** The call to the updater (lines 102-105) *)

(** The updater is called at most once, and then with the three names. *)
Lemma updates_notebook {W} (h : handler W) w :
  updates (trace (run h notebook w)) = []
  ∨ updates (trace (run h notebook w)) =
      [["ecoinvent-3.8-cutoff"; "ecoinvent-3.8-apos";
        "ecoinvent-3.8-consequential"]].
Proof. execute h; auto. Qed.

(** C2.  [update_ecoinvent_definitions] is called exactly once, with the list
    ["ecoinvent-3.8-cutoff", "ecoinvent-3.8-apos",
    "ecoinvent-3.8-consequential"]: never more than once and never with
    another argument, and once in every run that completes.  These are the
    names of the databases read in the verification loop, and each is
    f"ecoinvent-{version}-{system_model}" for the arguments of one import
    call. *)
Theorem C2_update_called_once_with_db_names {W} (h : handler W) w :
  let o := run h notebook w in
  (updates (trace o) = []
   ∨ updates (trace o) =
       [["ecoinvent-3.8-cutoff"; "ecoinvent-3.8-apos";
         "ecoinvent-3.8-consequential"]])
  ∧ (completed o →
     updates (trace o) =
       [["ecoinvent-3.8-cutoff"; "ecoinvent-3.8-apos";
         "ecoinvent-3.8-consequential"]]
     ∧ updates (trace o) = [(reads (trace o)).*1]
     ∧ updates (trace o) =
         [map (λ '(version, system_model, _),
                 "ecoinvent-" +:+ version +:+ "-" +:+ system_model)
              (imports (trace o))]).
Proof.
  split; [apply updates_notebook|].
  unfold completed. execute h; done.
Qed.

Lemma C2_update_called_once_with_db_names_witness :
  completed (run Sim.sim notebook Sim.rerun)
  ∧ updates (trace (run Sim.sim notebook Sim.rerun)) =
      [["ecoinvent-3.8-cutoff"; "ecoinvent-3.8-apos";
        "ecoinvent-3.8-consequential"]].
Proof.
  assert (completed (run Sim.sim notebook Sim.rerun)) as Hok by (vm_compute; exact I).
  split; [exact Hok|].
  exact (proj1 (proj2 (C2_update_called_once_with_db_names Sim.sim Sim.rerun) Hok)).
Defined.

(** C10.  The argument of [update_ecoinvent_definitions] depends on nothing
    the collaborators return: in any two runs that reach the call, against
    any collaborators and from any states, the argument is the same list
    ["ecoinvent-3.8-cutoff", "ecoinvent-3.8-apos",
    "ecoinvent-3.8-consequential"]; the last cell, given a version, passes
    the names built from that version and the tuple of system models. *)
Theorem C10_update_argument_is_constant
    {W1 W2} (h1 : handler W1) w1 (h2 : handler W2) w2 names1 names2 :
  names1 ∈ updates (trace (run h1 notebook w1)) →
  names2 ∈ updates (trace (run h2 notebook w2)) →
  names1 = names2
  ∧ names1 = ["ecoinvent-3.8-cutoff"; "ecoinvent-3.8-apos";
              "ecoinvent-3.8-consequential"]
  ∧ ∀ VERSION,
      calls (trace (run h1 (cell_update VERSION) w1)) =
        [UpdateEcoinventDefinitions
           ["ecoinvent-" +:+ VERSION +:+ "-cutoff";
            "ecoinvent-" +:+ VERSION +:+ "-apos";
            "ecoinvent-" +:+ VERSION +:+ "-consequential"]].
Proof.
  intros H1 H2.
  destruct (updates_notebook h1 w1) as [E1|E1]; rewrite E1 in H1;
    [by apply elem_of_nil in H1|apply list_elem_of_singleton in H1].
  destruct (updates_notebook h2 w2) as [E2|E2]; rewrite E2 in H2;
    [by apply elem_of_nil in H2|apply list_elem_of_singleton in H2].
  subst. do 2 (split; [done|]).
  intros VERSION. unfold cell_update, call_. cbn.
  by destruct (h1 _ w1) as [e|[[] w']].
Qed.

Lemma C10_update_argument_is_constant_witness :
  ["ecoinvent-3.8-cutoff"; "ecoinvent-3.8-apos"; "ecoinvent-3.8-consequential"]
    ∈ updates (trace (run Sim.sim notebook Sim.fresh))
  ∧ ["ecoinvent-3.8-cutoff"; "ecoinvent-3.8-apos"; "ecoinvent-3.8-consequential"]
    ∈ updates (trace (run Sim.sim notebook Sim.rerun))
  ∧ calls (trace (run Sim.sim (cell_update "3.9") Sim.fresh)) =
      [UpdateEcoinventDefinitions
         ["ecoinvent-3.9-cutoff"; "ecoinvent-3.9-apos";
          "ecoinvent-3.9-consequential"]].
Proof.
  assert (["ecoinvent-3.8-cutoff"; "ecoinvent-3.8-apos"; "ecoinvent-3.8-consequential"]
            ∈ updates (trace (run Sim.sim notebook Sim.fresh))) as H1
    by (apply (list_elem_of_lookup_2 _ 0); vm_compute; reflexivity).
  assert (["ecoinvent-3.8-cutoff"; "ecoinvent-3.8-apos"; "ecoinvent-3.8-consequential"]
            ∈ updates (trace (run Sim.sim notebook Sim.rerun))) as H2
    by (apply (list_elem_of_lookup_2 _ 0); vm_compute; reflexivity).
  split; [exact H1|]. split; [exact H2|].
  exact (proj2 (proj2 (C10_update_argument_is_constant
                         Sim.sim Sim.fresh Sim.sim Sim.rerun _ _ H1 H2)) "3.9").
Defined.

(** ** The verification loop (lines 82-86) *)

(** C9.  In a run in which one of the databases read back yields an empty
    location set, [update_ecoinvent_definitions] is never called: the run
    ends in the AssertionError of line 85. *)
Theorem C9_no_update_after_empty_locations
    {W} (h : handler W) w db_name dss :
  (db_name, dss) ∈ reads (trace (run h notebook w)) →
  locations_of dss = inr ∅ →
  updates (trace (run h notebook w)) = []
  ∧ result (run h notebook w) = inl AssertionError.
Proof.
  execute h; intros Hread Hempty.
  all: repeat match goal with
       | H : _ ∈ [] |- _ => by apply elem_of_nil in H
       | H : _ ∈ _ :: _ |- _ => apply elem_of_cons in H as [[= -> ->]|H]
       | H : truthy _ = true |- _ => apply truthy_true in H
       | H : locations_of ?d = inr ∅, H' : locations_of ?d = _ |- _ =>
           rewrite H in H'; simplify_eq
       end.
  all: done.
Qed.

Lemma C9_no_update_after_empty_locations_witness :
  ("ecoinvent-3.8-apos", []) ∈ reads (trace (run Sim.sim notebook Sim.hollow))
  ∧ locations_of [] = inr ∅
  ∧ updates (trace (run Sim.sim notebook Sim.hollow)) = []
  ∧ result (run Sim.sim notebook Sim.hollow) = inl AssertionError.
Proof.
  assert (("ecoinvent-3.8-apos", [])
            ∈ reads (trace (run Sim.sim notebook Sim.hollow))) as Hread
    by (apply (list_elem_of_lookup_2 _ 1); vm_compute; reflexivity).
  split; [exact Hread|]. split; [reflexivity|].
  exact (C9_no_update_after_empty_locations
           Sim.sim Sim.hollow "ecoinvent-3.8-apos" [] Hread eq_refl).
Defined.

Ltac inspect_reads :=
  repeat match goal with
  | H : _ ∈ [] |- _ => by apply elem_of_nil in H
  | H : _ ∈ _ :: _ |- _ => apply elem_of_cons in H as [[= -> ->]|H]
  | H : truthy _ = true |- _ => apply truthy_true in H
  | H : truthy _ = false |- _ => apply truthy_false in H as ->
  | H : locations_of ?d = inr ∅, H' : locations_of ?d = _ |- _ =>
      rewrite H in H'; simplify_eq
  end.

(** C3.  The verification loop reads back, for each of the three databases,
    its datasets and its record count, builds the set of lower-cased
    locations and asserts that it is not empty: in a run that completes, the
    set built for each database is not empty, holds exactly the lower-casings
    of the 'location' values of its datasets, and none of its members has an
    ASCII capital left.  The run ends in
    the AssertionError of line 85 exactly when one of the sets read is empty.
    Nothing else in the notebook handles an error: a dataset on which line 84
    fails ends the run with that failure, a call that raises is the last
    thing that happens, and its exception is the result of the run. *)
Theorem C3_assertion_is_the_only_check {W} (h : handler W) w :
  let o := run h notebook w in
  (result o = inl AssertionError ↔
     ∃ db_name dss,
       (db_name, dss) ∈ reads (trace o) ∧ locations_of dss = inr ∅)
  ∧ (∀ db_name dss f,
       (db_name, dss) ∈ reads (trace o) → locations_of dss = inl f →
       result o = inl f)
  ∧ (completed o →
     (reads (trace o)).*1 =
       ["ecoinvent-3.8-cutoff"; "ecoinvent-3.8-apos";
        "ecoinvent-3.8-consequential"]
     ∧ (counts (trace o)).*1 =
       ["ecoinvent-3.8-cutoff"; "ecoinvent-3.8-apos";
        "ecoinvent-3.8-consequential"]
     ∧ Forall (λ '(_, dss), ∃ locations,
                 locations_of dss = inr locations ∧ locations ≠ ∅
                 ∧ (∀ v, v ∈ locations ↔
                         ∃ ds loc, ds ∈ dss ∧ ds !! "location" = Some loc
                                   ∧ lowered loc = inr v)
                 ∧ (∀ s, Str s ∈ locations ↔
                         ∃ ds loc, ds ∈ dss
                                   ∧ ds !! "location" = Some (Str loc)
                                   ∧ s = lower loc)
                 ∧ (∀ v, v ∈ locations → no_ascii_capital v))
              (reads (trace o)))
  ∧ (∀ c e, Raised c e ∈ trace o →
       result o = inl (ExternalError c e)
       ∧ last (trace o) = Some (Raised c e)).
Proof.
  assert (∀ dss locations,
            locations_of dss = inr locations →
            (∀ v, v ∈ locations ↔
                  ∃ ds loc, ds ∈ dss ∧ ds !! "location" = Some loc
                            ∧ lowered loc = inr v)
            ∧ (∀ s, Str s ∈ locations ↔
                    ∃ ds loc, ds ∈ dss ∧ ds !! "location" = Some (Str loc)
                              ∧ s = lower loc)
            ∧ (∀ v, v ∈ locations → no_ascii_capital v)) as Hcontent.
  { intros dss locations Hlocs. split_and!; intros x.
    - rewrite (elem_of_locations_of _ _ _ Hlocs).
      setoid_rewrite location_lower_inr. naive_solver.
    - rewrite (elem_of_locations_of _ _ _ Hlocs).
      setoid_rewrite location_lower_str. naive_solver.
    - rewrite (elem_of_locations_of _ _ _ Hlocs).
      intros (ds & _ & (loc & _ & Hx)%location_lower_inr).
      by eapply lowered_no_capital. }
  cbn zeta. split; [|split; [|split; [|intros c e; apply raised_aborts]]].
  - execute h.
    all: split; [intros ?; simplify_eq|intros (db_name & dss & Hread & Hempty)].
    all: inspect_reads; try done.
    all: try by match goal with
                | H : locations_of _ = inl AssertionError |- _ =>
                    apply locations_of_failure in H as [?|[?|?]]
                end.
    all: eexists _, _; split; [|eassumption].
    all: repeat first [apply list_elem_of_here|apply list_elem_of_further].
  - execute h; intros db_name dss f' Hread Hfail.
    all: repeat match goal with
         | H : _ ∈ [] |- _ => by apply elem_of_nil in H
         | H : _ ∈ _ :: _ |- _ => apply elem_of_cons in H as [[= -> ->]|H]
         end.
    all: congruence.
  - unfold completed. execute h; try done.
    all: intros _; inspect_reads; split_and!; [done..|].
    all: repeat (constructor;
                 [eexists; split; [eassumption|]; split; [done|];
                  by apply Hcontent|]);
         constructor.
Qed.

Lemma C3_assertion_is_the_only_check_witness :
  completed (run Sim.sim notebook Sim.fresh)
  ∧ (reads (trace (run Sim.sim notebook Sim.fresh))).*1 =
      ["ecoinvent-3.8-cutoff"; "ecoinvent-3.8-apos";
       "ecoinvent-3.8-consequential"]
  ∧ map (λ read, locations_of read.2)
        (reads (trace (run Sim.sim notebook Sim.fresh)))
    = [inr {[ Str "ch"; Str "row"; Str "glo" ]};
       inr {[ Str "ch"; Str "roe" ]}; inr {[ Str "glo" ]}]
  ∧ result (run Sim.sim notebook Sim.hollow) = inl AssertionError.
Proof.
  assert (completed (run Sim.sim notebook Sim.fresh)) as Hok
    by (vm_compute; exact I).
  split; [exact Hok|]. split; [|split].
  - exact (proj1 (proj1 (proj2 (proj2 (C3_assertion_is_the_only_check
                                         Sim.sim Sim.fresh))) Hok)).
  - apply (bool_decide_unpack _). vm_compute. exact I.
  - apply (proj1 (C3_assertion_is_the_only_check Sim.sim Sim.hollow)).
    exists "ecoinvent-3.8-apos", []. split; [|reflexivity].
    apply (list_elem_of_lookup_2 _ 1). vm_compute. reflexivity.
Defined.

(** C7.  The set built on line 84 from the datasets a database yields is the
    set of their lower-cased 'location' values: a value is in the set exactly
    when it is [loc.lower()] for the 'location' [loc] of one of the datasets,
    a string exactly when it is the lower-casing of the 'location' string of
    one of them; lower-casing leaves every member as it is,
    [s.lower() == s]; and no member has an ASCII capital left. *)
Theorem C7_locations_are_lower_cased dss locations :
  locations_of dss = inr locations →
  (∀ v, v ∈ locations ↔
        ∃ ds loc, ds ∈ dss ∧ ds !! "location" = Some loc ∧ lowered loc = inr v)
  ∧ (∀ s, Str s ∈ locations ↔
          ∃ ds loc, ds ∈ dss ∧ ds !! "location" = Some (Str loc)
                    ∧ s = lower loc)
  ∧ (∀ s, Str s ∈ locations → lower s = s)
  ∧ (∀ v, v ∈ locations → lowered v = inr v)
  ∧ (∀ v, v ∈ locations → no_ascii_capital v).
Proof.
  intros Hlocs.
  assert (∀ v, v ∈ locations ↔
               ∃ ds loc, ds ∈ dss ∧ ds !! "location" = Some loc
                         ∧ lowered loc = inr v) as Hmem.
  { intros v. rewrite (elem_of_locations_of _ _ _ Hlocs).
    setoid_rewrite location_lower_inr. naive_solver. }
  assert (∀ s, Str s ∈ locations ↔
               ∃ ds loc, ds ∈ dss ∧ ds !! "location" = Some (Str loc)
                         ∧ s = lower loc) as Hstr.
  { intros s. rewrite (elem_of_locations_of _ _ _ Hlocs).
    setoid_rewrite location_lower_str. naive_solver. }
  split_and!; [done|done| | |].
  - intros s (ds & loc & _ & _ & ->)%Hstr. apply lower_idemp.
  - intros v (ds & loc & _ & _ & Hv)%Hmem. by eapply lowered_idemp.
  - intros v (ds & loc & _ & _ & Hv)%Hmem. by eapply lowered_no_capital.
Qed.

Lemma C7_locations_are_lower_cased_witness :
  locations_of [Sim.ds "CH"; Sim.ds "Åland"; Sim.ds "ΟΔΟΣ"; Sim.ds "ch";
                {[ "location" := Bytes "RER" ]}]
  = inr {[ Str "ch"; Str "åland"; Str "οδος"; Bytes "rer" ]}
  ∧ (Str "åland"
       ∈ ({[ Str "ch"; Str "åland"; Str "οδος"; Bytes "rer" ]} : gset field) ↔
       ∃ ds loc,
         ds ∈ [Sim.ds "CH"; Sim.ds "Åland"; Sim.ds "ΟΔΟΣ"; Sim.ds "ch";
               {[ "location" := Bytes "RER" ]}]
         ∧ ds !! "location" = Some (Str loc) ∧ py "åland" = lower loc)
  ∧ (∀ s, Str s ∈ ({[ Str "ch"; Str "åland"; Str "οδος"; Bytes "rer" ]}
                     : gset field) →
          lower s = s)
  ∧ (∀ v, v ∈ ({[ Str "ch"; Str "åland"; Str "οδος"; Bytes "rer" ]}
                 : gset field) →
          no_ascii_capital v).
Proof.
  assert (locations_of [Sim.ds "CH"; Sim.ds "Åland"; Sim.ds "ΟΔΟΣ"; Sim.ds "ch";
                        {[ "location" := Bytes "RER" ]}]
          = inr {[ Str "ch"; Str "åland"; Str "οδος"; Bytes "rer" ]}) as Hlocs
    by (apply (bool_decide_unpack _); vm_compute; exact I).
  split; [exact Hlocs|].
  destruct (C7_locations_are_lower_cased _ _ Hlocs)
    as (_ & Hstr & Hfix & _ & Hlow).
  split; [exact (Hstr (py "åland"))|]. split; [exact Hfix|exact Hlow].
Defined.

(** What line 86 prints as its second field is whether "roe" is in the set
    built from the datasets just read. *)
Lemma printed_has_roe {W} (h : handler W) w db_name b count :
  Print db_name b count ∈ calls (trace (run h notebook w)) →
  ∃ dss locations,
    (db_name, dss) ∈ reads (trace (run h notebook w))
    ∧ locations_of dss = inr locations
    ∧ b = bool_decide (Str "roe" ∈ locations).
Proof.
  execute h; intros Hin.
  all: repeat match goal with
       | H : _ ∈ [] |- _ => by apply elem_of_nil in H
       | H : _ ∈ _ :: _ |- _ => apply elem_of_cons in H as [[=]|H]
       end.
  all: subst; eexists _, _; split; [|split; [|reflexivity]]; [|eassumption].
  all: repeat first [apply list_elem_of_here|apply list_elem_of_further].
Qed.

(** ** The project store (lines 21-40) *)

(** C4 as stated, that the notebook deletes the project "RoW generation" and
    then selects it, fails on a machine where the project does not exist yet:
    the run completes and no project was deleted. *)
Lemma C4_counterexample :
  completed (run Sim.sim notebook Sim.fresh)
  ∧ ¬ ∃ delete_dir,
        DeleteProject "RoW generation" delete_dir
          ∈ calls (trace (run Sim.sim notebook Sim.fresh)).
Proof.
  split; [vm_compute; exact I|].
  intros [delete_dir Hin]. vm_compute in Hin.
  repeat (apply elem_of_cons in Hin as [[=]|Hin]).
  by apply elem_of_nil in Hin.
Qed.

(** C4, amended.  When "RoW generation" is in the project store the notebook
    calls [delete_project] for it and, if that call returns, then selects the
    project as the current one; when it is not in the store, the notebook
    deletes nothing and selects it straight away.  No run selects before it
    deletes: whenever both calls are made, the deletion comes first. *)
Theorem C4_delete_then_select {W} (h : handler W) w :
  let t := trace (run h notebook w) in
  (∀ w1,
     h (ProjectsContains "RoW generation") w = inr (true, w1) →
     take 2 (calls t) =
       [ProjectsContains "RoW generation";
        DeleteProject "RoW generation" true]
     ∧ ∀ w2,
         h (DeleteProject "RoW generation" true) w1 = inr (tt, w2) →
         take 3 (calls t) =
           [ProjectsContains "RoW generation";
            DeleteProject "RoW generation" true;
            SetCurrent "RoW generation"])
  ∧ (∀ w1,
       h (ProjectsContains "RoW generation") w = inr (false, w1) →
       take 2 (calls t) =
         [ProjectsContains "RoW generation"; SetCurrent "RoW generation"]
       ∧ deletions t = [])
  ∧ (project_ops t `prefix_of`
       [Deleted "RoW generation"; Selected "RoW generation"]
     ∨ project_ops t = [Selected "RoW generation"])
  ∧ (∀ i j name delete_dir name',
       calls t !! i = Some (DeleteProject name delete_dir) →
       calls t !! j = Some (SetCurrent name') →
       i < j).
Proof.
  execute h.
  all: split_and!;
    [intros ? ?; simplify_eq;
       try (split; [done|intros ? ?; simplify_eq; first [done|congruence]])
    |intros ? ?; by simplify_eq
    |first [left; by eexists|by right]
    |intros i j name delete_dir name' Hi Hj].
  all: destruct i as [|[|i]]; cbn in Hi; try discriminate Hi.
  all: try (destruct j as [|[|j]]; cbn in Hj; try discriminate Hj; lia).
  all: apply list_elem_of_lookup_2 in Hi.
  all: repeat match goal with
       | H : _ ∈ [] |- _ => by apply elem_of_nil in H
       | H : _ ∈ _ :: _ |- _ => apply elem_of_cons in H as [[=]|H]
       end.
Qed.

Lemma C4_delete_then_select_witness :
  take 3 (calls (trace (run Sim.sim notebook Sim.rerun))) =
    [ProjectsContains "RoW generation";
     DeleteProject "RoW generation" true;
     SetCurrent "RoW generation"]
  ∧ take 2 (calls (trace (run Sim.sim notebook Sim.fresh))) =
      [ProjectsContains "RoW generation"; SetCurrent "RoW generation"]
  ∧ deletions (trace (run Sim.sim notebook Sim.fresh)) = []
  ∧ calls (trace (run Sim.sim notebook Sim.rerun)) !! 1 =
      Some (DeleteProject "RoW generation" true)
  ∧ calls (trace (run Sim.sim notebook Sim.rerun)) !! 2 =
      Some (SetCurrent "RoW generation")
  ∧ 1 < 2.
Proof.
  assert (calls (trace (run Sim.sim notebook Sim.rerun)) !! 1 =
            Some (DeleteProject "RoW generation" true)) as Hdelete
    by (vm_compute; reflexivity).
  assert (calls (trace (run Sim.sim notebook Sim.rerun)) !! 2 =
            Some (SetCurrent "RoW generation")) as Hselect
    by (vm_compute; reflexivity).
  assert (Sim.sim (ProjectsContains "RoW generation") Sim.rerun
          = inr (true, Sim.rerun)) as Hpresent by (vm_compute; reflexivity).
  assert (Sim.sim (ProjectsContains "RoW generation") Sim.fresh
          = inr (false, Sim.fresh)) as Habsent by (vm_compute; reflexivity).
  destruct (proj1 (C4_delete_then_select Sim.sim Sim.rerun) _ Hpresent)
    as [_ Hthen].
  destruct (proj1 (proj2 (C4_delete_then_select Sim.sim Sim.fresh)) _ Habsent)
    as [Hdirect Hnone].
  split_and!; [|exact Hdirect|exact Hnone|exact Hdelete|exact Hselect|].
  - eapply Hthen. vm_compute. reflexivity.
  - exact (proj2 (proj2 (proj2 (C4_delete_then_select Sim.sim Sim.rerun)))
             1 2 _ _ _ Hdelete Hselect).
Defined.

(** C8.  [delete_project] is called only when [delete] is true and the
    membership test of line 30 answered true, and then once, for
    "RoW generation".  With [delete] false, or with the project not in the
    store, the notebook goes on to select the project without deleting
    anything.  So an exception that the store keeps for deleting a project
    it does not report as present never cuts the run short. *)
Theorem C8_delete_is_guarded {W} (h : handler W) w delete :
  let o := run h (cells_from delete) w in
  (deletions (trace o) ≠ [] →
     delete = true
     ∧ (∃ w1, h (ProjectsContains "RoW generation") w = inr (true, w1))
     ∧ deletions (trace o) = [("RoW generation", true)])
  ∧ (delete = false →
     head (calls (trace o)) = Some (SetCurrent "RoW generation")
     ∧ deletions (trace o) = [])
  ∧ (∀ w1,
       delete = true →
       h (ProjectsContains "RoW generation") w = inr (false, w1) →
       take 2 (calls (trace o)) =
         [ProjectsContains "RoW generation"; SetCurrent "RoW generation"]
       ∧ deletions (trace o) = [])
  ∧ (∀ not_a_project,
       (∀ name delete_dir w0 w1,
          h (ProjectsContains name) w0 = inr (true, w1) →
          h (DeleteProject name delete_dir) w1 ≠ inl not_a_project) →
       ∀ c, result o = inl (ExternalError c not_a_project) →
            delete_args c = None).
Proof.
  execute h.
  all: split_and!;
    [intros Hdel; first [congruence|by eauto]
    |intros [=]; try done
    |intros ???; by simplify_eq
    |intros e' Hstore c' [=]; simplify_eq; try done].
  all: match goal with
       | H : locations_of _ = inl (ExternalError _ _) |- _ =>
           by apply locations_of_failure in H as [?|[?|?]]
       | H : _ (ProjectsContains _) _ = inr (true, _) |- _ =>
           by destruct (Hstore _ true _ _ H)
       end.
Qed.

Lemma notebook_cells_from : notebook = cells_from true.
Proof. reflexivity. Qed.

Lemma sim_can_delete name delete_dir (w0 w1 : Sim.world) :
  Sim.sim (ProjectsContains name) w0 = inr (true, w1) →
  Sim.sim (DeleteProject name delete_dir) w1
  ≠ inl (Exc "ValueError" "not a project").
Proof.
  cbn. intros [= Hin%bool_decide_eq_true <-].
  by destruct (decide (name ∈ Sim.projects w0)).
Qed.

Lemma C8_delete_is_guarded_witness :
  deletions (trace (run Sim.sim (cells_from true) Sim.rerun)) =
    [("RoW generation", true)]
  ∧ take 2 (calls (trace (run Sim.sim (cells_from true) Sim.fresh))) =
      [ProjectsContains "RoW generation"; SetCurrent "RoW generation"]
  ∧ head (calls (trace (run Sim.sim (cells_from false) Sim.rerun))) =
      Some (SetCurrent "RoW generation")
  ∧ (∀ c, result (run Sim.sim (cells_from true) Sim.rerun)
            = inl (ExternalError c (Exc "ValueError" "not a project")) →
          delete_args c = None).
Proof.
  split_and!.
  - apply (proj1 (C8_delete_is_guarded Sim.sim Sim.rerun true)).
    vm_compute. discriminate.
  - eapply (proj1 (proj2 (proj2 (C8_delete_is_guarded Sim.sim Sim.fresh true))));
      vm_compute; reflexivity.
  - apply (proj1 (proj2 (C8_delete_is_guarded Sim.sim Sim.rerun false))).
    reflexivity.
  - apply (proj2 (proj2 (proj2 (C8_delete_is_guarded Sim.sim Sim.rerun true)))).
    intros name delete_dir w0 w1. apply sim_can_delete.
Defined.

(** ** The notebook as a whole *)




(** C6.  In every run the collaborators are called in the order project
    store, release client, importer, verification, updater: the stages of the
    calls never decrease, the run goes through the stages call by call as the
    notebook lists them and stops only where it is cut short, so that a stage
    begins only after every call of the stages before it has been made; a run
    that completes has made them all. *)
Theorem C6_collaborators_in_fixed_order {W} (h : handler W) w :
  let o := run h notebook w in
  let stages := map stage (calls (trace o)) in
  Sorted le stages
  ∧ (stages `prefix_of` [1; 1; 1; 2; 2; 3; 3; 3; 4; 4; 4; 4; 4; 4; 4; 4; 4; 5]
     ∨ stages `prefix_of` [1; 1; 2; 2; 3; 3; 3; 4; 4; 4; 4; 4; 4; 4; 4; 4; 5])
  ∧ (completed o →
     ∃ present my_settings has_roe1 count1 has_roe2 count2 has_roe3 count3,
       calls (trace o) =
         ProjectsContains "RoW generation"
         :: (if (present : bool)
             then [DeleteProject "RoW generation" true] else [])
         ++ [SetCurrent "RoW generation";
             NewSettings;
             NewEcoinventRelease my_settings;
             ImportEcoinventRelease "3.8" "cutoff" false;
             ImportEcoinventRelease "3.8" "apos" false;
             ImportEcoinventRelease "3.8" "consequential" false;
             DatabaseIter "ecoinvent-3.8-cutoff";
             DatabaseLen "ecoinvent-3.8-cutoff";
             Print "ecoinvent-3.8-cutoff" has_roe1 count1;
             DatabaseIter "ecoinvent-3.8-apos";
             DatabaseLen "ecoinvent-3.8-apos";
             Print "ecoinvent-3.8-apos" has_roe2 count2;
             DatabaseIter "ecoinvent-3.8-consequential";
             DatabaseLen "ecoinvent-3.8-consequential";
             Print "ecoinvent-3.8-consequential" has_roe3 count3;
             UpdateEcoinventDefinitions
               ["ecoinvent-3.8-cutoff"; "ecoinvent-3.8-apos";
                "ecoinvent-3.8-consequential"]]).
Proof.
  cbn zeta. split.
  { pose proof (staged_sorted 1 5 _ h w (staged_cells_from true)) as Hsorted.
    by apply Sorted_inv in Hsorted as [Hsorted _]. }
  unfold completed. execute h.
  all: split; [first [left; by eexists|right; by eexists]|try done].
  all: intros _;
    first [by eexists true, _, _, _, _, _, _, _
          |by eexists false, _, _, _, _, _, _, _].
Qed.

Lemma C6_collaborators_in_fixed_order_witness :
  completed (run Sim.sim notebook Sim.fresh)
  ∧ map stage (calls (trace (run Sim.sim notebook Sim.fresh))) =
      [1; 1; 2; 2; 3; 3; 3; 4; 4; 4; 4; 4; 4; 4; 4; 4; 5]
  ∧ Sorted le (map stage (calls (trace (run Sim.sim notebook Sim.fresh)))).
Proof.
  assert (completed (run Sim.sim notebook Sim.fresh)) as Hok
    by (vm_compute; exact I).
  split; [exact Hok|].
  destruct (C6_collaborators_in_fixed_order Sim.sim Sim.fresh)
    as (Hsorted & _ & Hcalls).
  split; [|exact Hsorted].
  destruct (Hcalls Hok) as (present & s & b1 & n1 & b2 & n2 & b3 & n3 & Heq).
  cbn zeta in Heq. rewrite Heq. destruct present; [|reflexivity].
  vm_compute in Heq. discriminate Heq.
Defined.

(** ** More on the set comprehension of line 84 *)

Lemma location_lower_inl ds f :
  location_lower ds = inl f ↔
  (ds !! "location" = None ∧ f = KeyError)
  ∨ (ds !! "location" = Some NoLower ∧ f = AttributeError "lower")
  ∨ (∃ b, ds !! "location" = Some (Bytearray b) ∧ f = TypeError).
Proof.
  unfold location_lower.
  destruct (ds !! "location") as [[loc|b|b|]|]; cbn; naive_solver.
Qed.

Lemma location_lower_has_location ds :
  has_location ds ↔ ∃ v, location_lower ds = inr v.
Proof.
  unfold has_location, location_lower.
  destruct (ds !! "location") as [[loc|b|b|]|]; cbn; naive_solver.
Qed.

(** X1.  The comprehension of line 84 yields a set exactly when every dataset
    has a 'location' that is a [str] or a [bytes] object. *)
Theorem X1_locations_defined_iff_all_located dss :
  (∃ locations, locations_of dss = inr locations) ↔ Forall has_location dss.
Proof.
  induction dss as [|ds dss IH].
  - split; [constructor|by eexists].
  - rewrite Forall_cons, <-IH, location_lower_has_location.
    setoid_rewrite locations_of_cons. naive_solver.
Qed.

Lemma X1_locations_defined_iff_all_located_witness :
  (∃ locations,
     locations_of [Sim.ds "CH"; {[ "location" := Bytes "CH" ]}] = inr locations)
  ∧ ¬ ∃ locations,
        locations_of [Sim.ds "CH"; ∅; Sim.ds "RoW"] = inr locations.
Proof.
  split.
  - apply (proj2 (X1_locations_defined_iff_all_located _)).
    constructor; [left|constructor; [right|constructor]];
      eexists; vm_compute; reflexivity.
  - intros Hdef.
    apply (proj1 (X1_locations_defined_iff_all_located _)) in Hdef.
    apply Forall_cons in Hdef as [_ Hdef].
    apply Forall_cons in Hdef as [[[loc Hloc]|[b Hloc]] _];
      vm_compute in Hloc; discriminate Hloc.
Defined.

(** X2.  When the comprehension of line 84 raises, the exception is that of
    the first dataset, in the order the database yields them, that it cannot
    take: KeyError for a dataset without 'location', AttributeError for a
    'location' without [lower], TypeError for one that is a bytearray; the
    datasets after it do not matter. *)
Theorem X2_first_bad_dataset_decides dss f :
  locations_of dss = inl f ↔
  ∃ before ds after,
    dss = before ++ ds :: after
    ∧ Forall has_location before
    ∧ ((ds !! "location" = None ∧ f = KeyError)
       ∨ (ds !! "location" = Some NoLower ∧ f = AttributeError "lower")
       ∨ (∃ b, ds !! "location" = Some (Bytearray b) ∧ f = TypeError)).
Proof.
  setoid_rewrite <-location_lower_inl.
  induction dss as [|ds dss IH]; cbn [locations_of].
  - split; [done|]. by intros ([|??] & ? & ? & ? & _).
  - destruct (location_lower ds) as [f'|s] eqn:Hds.
    + split.
      * intros [= <-]. by exists [], ds, dss.
      * intros (before & ds' & after & Heq & Hbefore & Hbad).
        destruct before as [|ds0 before]; simplify_eq/=; [congruence|].
        apply Forall_cons in Hbefore as [[s Hs]%location_lower_has_location _].
        congruence.
    + destruct (locations_of dss) as [f'|acc] eqn:Hrest.
      * rewrite IH. split.
        -- intros (before & ds' & after & -> & Hbefore & Hbad).
           exists (ds :: before), ds', after. split_and!; [done| |done].
           constructor; [|done]. apply location_lower_has_location. eauto.
        -- intros (before & ds' & after & Heq & Hbefore & Hbad).
           destruct before as [|ds0 before]; simplify_eq/=; [congruence|].
           apply Forall_cons in Hbefore as [_ Hbefore]. eauto 10.
      * split; [done|].
        intros (before & ds' & after & Heq & Hbefore & Hbad).
        destruct before as [|ds0 before]; simplify_eq/=; [congruence|].
        apply Forall_cons in Hbefore as [_ Hbefore].
        assert (inr acc = inl f) as Hfail by (apply IH; eauto 10).
        discriminate Hfail.
Qed.

Lemma X2_first_bad_dataset_decides_witness :
  locations_of [{[ "location" := Bytes "CH" ]}; ∅; {[ "location" := NoLower ]}]
  = inl KeyError.
Proof.
  apply (proj2 (X2_first_bad_dataset_decides _ _)).
  exists [{[ "location" := Bytes "CH" ]}], ∅, [{[ "location" := NoLower ]}].
  split; [reflexivity|]. split.
  - constructor; [|constructor]. right. eexists. vm_compute. reflexivity.
  - left. split; reflexivity.
Defined.

(** X3.  The set of line 84 does not depend on the order in which the
    database yields its datasets. *)
Theorem X3_locations_order_independent dss dss' locations :
  locations_of dss = inr locations →
  dss ≡ₚ dss' →
  locations_of dss' = inr locations.
Proof.
  intros Hlocs Hperm. revert locations Hlocs.
  induction Hperm as [|ds dss dss' _ IH|ds1 ds2 dss|dss dss' dss'' _ IH1 _ IH2];
    intros locations.
  - done.
  - intros (s & rest & Hds & Hrest & ->)%locations_of_cons.
    apply locations_of_cons. eauto 10.
  - intros (s2 & rest2 & Hds2 & (s1 & rest & Hds1 & Hrest & ->)%locations_of_cons
            & ->)%locations_of_cons.
    apply locations_of_cons. exists s1, ({[ s2 ]} ∪ rest).
    split_and!; [done| |set_solver].
    apply locations_of_cons. eauto 10.
  - intros Hlocs. by apply IH2, IH1.
Qed.

Lemma X3_locations_order_independent_witness :
  locations_of [Sim.ds "CH"; Sim.ds "RoW"; Sim.ds "GLO"]
  = inr {[ Str "ch"; Str "row"; Str "glo" ]}
  ∧ locations_of [Sim.ds "GLO"; Sim.ds "CH"; Sim.ds "RoW"]
    = inr {[ Str "ch"; Str "row"; Str "glo" ]}.
Proof.
  assert (locations_of [Sim.ds "CH"; Sim.ds "RoW"; Sim.ds "GLO"]
          = inr {[ Str "ch"; Str "row"; Str "glo" ]}) as Hlocs
    by (apply (bool_decide_unpack _); vm_compute; exact I).
  split; [exact Hlocs|].
  apply (X3_locations_order_independent _ _ _ Hlocs).
  symmetry.
  exact (Permutation_cons_append [Sim.ds "CH"; Sim.ds "RoW"] (Sim.ds "GLO")).
Defined.

(** X4.  The set of line 84 has at most as many members as the database has
    datasets, and at least one as soon as the database has a dataset: the
    assertion of line 85 fails on an empty database only. *)
Theorem X4_locations_size dss locations :
  locations_of dss = inr locations →
  size locations ≤ length dss
  ∧ (dss ≠ [] → 0 < size locations)
  ∧ (locations = ∅ ↔ dss = []).
Proof.
  intros Hlocs. split_and!.
  - revert locations Hlocs. induction dss as [|ds dss IH]; intros locations.
    + intros [= <-]. by rewrite size_empty.
    + intros (s & rest & _ & Hrest & ->)%locations_of_cons.
      specialize (IH _ Hrest). rewrite size_union_alt, size_singleton. cbn.
      assert (size (rest ∖ {[ s ]}) ≤ size rest)
        by (apply subseteq_size; set_solver).
      lia.
  - destruct dss as [|ds dss]; [done|]. intros _.
    apply locations_of_cons in Hlocs as (s & rest & _ & _ & ->).
    rewrite size_union_alt, size_singleton. lia.
  - rewrite <-locations_of_empty. split; [by intros <-|].
    intros Hempty. congruence.
Qed.

Lemma X4_locations_size_witness :
  locations_of [Sim.ds "CH"; Sim.ds "ch"; Sim.ds "RoW"]
  = inr {[ Str "ch"; Str "row" ]}
  ∧ size ({[ Str "ch"; Str "row" ]} : gset field) ≤ 3
  ∧ 0 < size ({[ Str "ch"; Str "row" ]} : gset field).
Proof.
  assert (locations_of [Sim.ds "CH"; Sim.ds "ch"; Sim.ds "RoW"]
          = inr {[ Str "ch"; Str "row" ]}) as Hlocs
    by (apply (bool_decide_unpack _); vm_compute; exact I).
  split; [exact Hlocs|].
  destruct (X4_locations_size _ _ Hlocs) as (Hle & Hpos & _).
  split; [exact Hle|]. apply Hpos. discriminate.
Defined.

(** ** Database names (lines 83 and 103) *)

Lemma append_inj_r (prefix s1 s2 : string) :
  prefix +:+ s1 = prefix +:+ s2 → s1 = s2.
Proof. induction prefix as [|c prefix IH]; cbn; [done|]. intros [= ?]. auto. Qed.

(** X5.  For one version, different system models give different database
    names: the names formed for a tuple without repetition are pairwise
    distinct, so no import overwrites the database of another and the
    updater is given every database once. *)
Theorem X5_db_names_distinct VERSION models :
  (∀ a b, db_name_of VERSION a = db_name_of VERSION b → a = b)
  ∧ (NoDup models → NoDup (map (db_name_of VERSION) models))
  ∧ NoDup (map (db_name_of VERSION) system_models).
Proof.
  assert (Inj (=) (=) (db_name_of VERSION)) as Hinj.
  { intros a b. unfold db_name_of.
    by intros ?%append_inj_r%append_inj_r%append_inj_r. }
  split_and!; [exact Hinj|apply (NoDup_fmap_2 _)|].
  apply (NoDup_fmap_2 _). unfold system_models.
  repeat (constructor; [set_solver|]). constructor.
Qed.

Lemma X5_db_names_distinct_witness :
  NoDup ["cutoff"; "apos"]
  ∧ NoDup (map (db_name_of "3.9") ["cutoff"; "apos"]).
Proof.
  assert (NoDup ["cutoff"; "apos"]) as Hmodels
    by (repeat (constructor; [set_solver|]); constructor).
  split; [exact Hmodels|].
  exact (proj1 (proj2 (X5_db_names_distinct "3.9" ["cutoff"; "apos"])) Hmodels).
Defined.

(** ** The verification loop over any tuple of system models *)

Lemma cell_verify_for VERSION :
  cell_verify VERSION = for_ system_models (verify_body VERSION).
Proof. reflexivity. Qed.

Lemma reads_app t1 t2 : reads (t1 ++ t2) = reads t1 ++ reads t2.
Proof. apply omap_app. Qed.

Lemma counts_app t1 t2 : counts (t1 ++ t2) = counts t1 ++ counts t2.
Proof. apply omap_app. Qed.

(** X7.  The loop of lines 82-86, over any version and any tuple of system
    models, reads the databases in the order of the tuple and stops at the
    first one that fails: the databases counted are an initial part of the
    databases read, which are an initial part of the databases named by the
    tuple; at most one database is read without being counted; and a loop
    that completes has read and counted them all. *)
Theorem X7_verify_loop_in_order {W} (h : handler W) VERSION models w :
  let o := run h (for_ models (verify_body VERSION)) w in
  (counts (trace o)).*1 `prefix_of` (reads (trace o)).*1
  ∧ (reads (trace o)).*1 `prefix_of` map (db_name_of VERSION) models
  ∧ length (reads (trace o)) ≤ S (length (counts (trace o)))
  ∧ (completed o →
     (reads (trace o)).*1 = map (db_name_of VERSION) models
     ∧ (counts (trace o)).*1 = map (db_name_of VERSION) models).
Proof.
  cbn zeta. revert w. induction models as [|sm models IH]; intros w.
  - cbn. split_and!; [done|done|lia|done].
  - cbn [for_ map]. unfold completed.
    change (bind ?p ?f) with (p ≫= f). rewrite trace_bind, result_bind.
    destruct (run h (verify_body VERSION sm) w) as [t1 w1 res1] eqn:Hbody.
    cbn [trace final result].
    unfold verify_body, call_, assert_ in Hbody.
    cbn -[truthy has_roe locations_of] in Hbody.
    repeat (execute_step h Hbody; cbn -[truthy has_roe locations_of] in Hbody).
    all: injection Hbody as <- <- <-.
    all: rewrite ?app_nil_r, ?reads_app, ?counts_app, ?fmap_app.
    all: cbn -[for_ length].
    all: try (split_and!; [by apply prefix_nil || by eexists
                          |by apply prefix_nil || by eexists
                          |cbn; lia|done]).
    match goal with
    | |- context [run h _ ?w'] =>
        destruct (IH w') as (Hcr & Hrm & Hlen & Hdone)
    end.
    split_and!.
    + by apply prefix_cons.
    + by apply prefix_cons.
    + cbn. lia.
    + intros Hres. destruct (Hdone Hres) as [-> ->]. done.
Qed.

Lemma X7_verify_loop_in_order_witness :
  completed (run Sim.sim (for_ ["cutoff"; "apos"] (verify_body "3.9")) stocked)
  ∧ (reads (trace (run Sim.sim (for_ ["cutoff"; "apos"] (verify_body "3.9"))
                       stocked))).*1
    = ["ecoinvent-3.9-cutoff"; "ecoinvent-3.9-apos"].
Proof.
  assert (completed (run Sim.sim (for_ ["cutoff"; "apos"] (verify_body "3.9"))
                         stocked)) as Hok by (vm_compute; exact I).
  split; [exact Hok|].
  exact (proj1 (proj2 (proj2 (proj2
           (X7_verify_loop_in_order Sim.sim "3.9" ["cutoff"; "apos"] stocked)))
           Hok)).
Defined.

(** ** What a run tells about the databases *)

(** X8.  The run ends in the AssertionError of line 85 exactly when one of
    the databases read back yields no dataset at all. *)
Theorem X8_assertion_fails_iff_empty_database {W} (h : handler W) w :
  result (run h notebook w) = inl AssertionError ↔
  ∃ db_name, (db_name, []) ∈ reads (trace (run h notebook w)).
Proof.
  execute h.
  all: split; [intros ?; simplify_eq|intros (db_name & Hread)].
  all: repeat match goal with
       | H : _ ∈ [] |- _ => by apply elem_of_nil in H
       | H : _ ∈ _ :: _ |- _ => apply elem_of_cons in H as [[= -> <-]|H]
       | H : truthy _ = true |- _ => apply truthy_true in H
       | H : truthy _ = false |- _ => apply truthy_false in H as ->
       | H : locations_of [] = _ |- _ => cbn in H; simplify_eq
       | H : locations_of _ = inr ∅ |- _ => apply locations_of_empty in H as ->
       end.
  all: try done.
  all: try by match goal with
              | H : locations_of _ = inl AssertionError |- _ =>
                  apply locations_of_failure in H as [?|[?|?]]
              end.
  all: eexists.
  all: repeat first [apply list_elem_of_here|apply list_elem_of_further].
Qed.

Lemma X8_assertion_fails_iff_empty_database_witness :
  result (run Sim.sim notebook Sim.hollow) = inl AssertionError.
Proof.
  apply (proj2 (X8_assertion_fails_iff_empty_database Sim.sim Sim.hollow)).
  exists "ecoinvent-3.8-apos".
  apply (list_elem_of_lookup_2 _ 1). vm_compute. reflexivity.
Defined.

(** X9.  [update_ecoinvent_definitions] is called, whether it then returns
    or raises, only after all three databases were read back, each with at
    least one dataset and every dataset with a 'location' that is a [str] or
    a [bytes] object. *)
Theorem X9_update_only_after_verification {W} (h : handler W) w :
  updates (trace (run h notebook w)) ≠ [] →
  (reads (trace (run h notebook w))).*1 =
    ["ecoinvent-3.8-cutoff"; "ecoinvent-3.8-apos";
     "ecoinvent-3.8-consequential"]
  ∧ Forall (λ '(_, dss), dss ≠ [] ∧ Forall has_location dss)
           (reads (trace (run h notebook w))).
Proof.
  assert (∀ dss locations,
            locations_of dss = inr locations → truthy locations = true →
            dss ≠ [] ∧ Forall has_location dss) as Hgood.
  { intros dss locations Hlocs Htrue%truthy_true. split.
    - intros ->. by cbn in Hlocs; simplify_eq.
    - clear Htrue. revert locations Hlocs.
      induction dss as [|ds dss IH]; intros locations; [constructor|].
      intros (s & rest & Hds & Hrest & _)%locations_of_cons.
      constructor; [|by eapply IH].
      apply location_lower_has_location. eauto. }
  execute h; intros Hupd; try done.
  all: split; [done|].
  all: repeat (constructor; [by eapply Hgood|]); constructor.
Qed.

Lemma X9_update_only_after_verification_witness :
  updates (trace (run Sim.sim notebook Sim.fresh)) ≠ []
  ∧ (reads (trace (run Sim.sim notebook Sim.fresh))).*1 =
      ["ecoinvent-3.8-cutoff"; "ecoinvent-3.8-apos";
       "ecoinvent-3.8-consequential"].
Proof.
  assert (updates (trace (run Sim.sim notebook Sim.fresh)) ≠ []) as Hupd
    by (vm_compute; discriminate).
  split; [exact Hupd|].
  exact (proj1 (X9_update_only_after_verification Sim.sim Sim.fresh Hupd)).
Defined.

(** X10.  The second field printed on line 86 tells, without regard to case,
    whether some dataset of the database just read is located in "roe": it
    is true exactly when the 'location' of one of these datasets lower-cases
    to "roe". *)
Theorem X10_printed_flag_ignores_case {W} (h : handler W) w db_name flag count :
  Print db_name flag count ∈ calls (trace (run h notebook w)) →
  ∃ dss,
    (db_name, dss) ∈ reads (trace (run h notebook w))
    ∧ (flag = true ↔
       ∃ ds loc, ds ∈ dss ∧ ds !! "location" = Some (Str loc)
                 ∧ lower loc = "roe").
Proof.
  intros (dss & locations & Hread & Hlocs & ->)%printed_has_roe.
  exists dss. split; [done|].
  rewrite bool_decide_eq_true, (elem_of_locations_of _ _ _ Hlocs).
  setoid_rewrite location_lower_str. naive_solver.
Qed.

Lemma X10_printed_flag_ignores_case_witness :
  Print "ecoinvent-3.8-apos" true 2
    ∈ calls (trace (run Sim.sim notebook Sim.fresh))
  ∧ ∃ dss,
      ("ecoinvent-3.8-apos", dss) ∈ reads (trace (run Sim.sim notebook Sim.fresh))
      ∧ (true = true ↔
         ∃ ds loc, ds ∈ dss ∧ ds !! "location" = Some (Str loc)
                   ∧ lower loc = "roe").
Proof.
  assert (Print "ecoinvent-3.8-apos" true 2
            ∈ calls (trace (run Sim.sim notebook Sim.fresh))) as Hin
    by (apply (list_elem_of_lookup_2 _ 12); vm_compute; reflexivity).
  split; [exact Hin|].
  exact (X10_printed_flag_ignores_case Sim.sim Sim.fresh _ _ _ Hin).
Defined.



(** ** The first cells (lines 21-50) *)

(** X12.  The membership test of line 30 is made at most once, as the first
    call of the run, and for "RoW generation"; with [delete] false it is not
    made at all, [and] leaving its right operand alone. *)
Theorem X12_membership_test_short_circuit {W} (h : handler W) w delete :
  let t := trace (run h (cells_from delete) w) in
  membership_tests t = (if delete then ["RoW generation"] else [])
  ∧ (delete = true →
     head (calls t) = Some (ProjectsContains "RoW generation")).
Proof. execute h; by split. Qed.

Lemma X12_membership_test_short_circuit_witness :
  head (calls (trace (run Sim.sim (cells_from true) Sim.fresh)))
  = Some (ProjectsContains "RoW generation").
Proof.
  exact (proj2 (X12_membership_test_short_circuit Sim.sim Sim.fresh true)
               eq_refl).
Defined.

(** X13.  The release client is built from the settings object that
    [Settings()] returned on the line before, and from no other. *)
Theorem X13_release_built_from_settings {W} (h : handler W) w my_settings :
  NewEcoinventRelease my_settings ∈ calls (trace (run h notebook w)) →
  built_settings (trace (run h notebook w)) = [my_settings].
Proof.
  execute h; intros Hin.
  all: repeat match goal with
       | H : _ ∈ [] |- _ => by apply elem_of_nil in H
       | H : _ ∈ _ :: _ |- _ => apply elem_of_cons in H as [[=]|H]
       end.
  all: by subst.
Qed.

Lemma X13_release_built_from_settings_witness :
  NewEcoinventRelease (SettingsObj 0)
    ∈ calls (trace (run Sim.sim notebook Sim.fresh))
  ∧ built_settings (trace (run Sim.sim notebook Sim.fresh)) = [SettingsObj 0].
Proof.
  assert (NewEcoinventRelease (SettingsObj 0)
            ∈ calls (trace (run Sim.sim notebook Sim.fresh))) as Hin
    by (apply (list_elem_of_lookup_2 _ 3); vm_compute; reflexivity).
  split; [exact Hin|].
  exact (X13_release_built_from_settings Sim.sim Sim.fresh _ Hin).
Defined.

(** ** What line 86 prints *)

(** X14.  Every line printed is for a database whose record count was read
    back just before, and shows that count; a run that completes prints one
    line per database, in the order of the tuple. *)
Theorem X14_printed_lines {W} (h : handler W) w :
  let t := trace (run h notebook w) in
  (prints t).*1.*1 `prefix_of` (counts t).*1
  ∧ (∀ db_name flag count,
       (db_name, flag, count) ∈ prints t → (db_name, count) ∈ counts t)
  ∧ (completed (run h notebook w) →
     (prints t).*1.*1 =
       ["ecoinvent-3.8-cutoff"; "ecoinvent-3.8-apos";
        "ecoinvent-3.8-consequential"]).
Proof.
  unfold completed. execute h.
  all: split_and!; [by eexists| |done].
  all: intros db_name flag count Hin.
  all: repeat match goal with
       | H : _ ∈ [] |- _ => by apply elem_of_nil in H
       | H : _ ∈ _ :: _ |- _ => apply elem_of_cons in H as [[= -> -> ->]|H]
       end.
  all: repeat first [apply list_elem_of_here|apply list_elem_of_further].
Qed.

Lemma X14_printed_lines_witness :
  completed (run Sim.sim notebook Sim.fresh)
  ∧ prints (trace (run Sim.sim notebook Sim.fresh)) =
      [("ecoinvent-3.8-cutoff", false, 3); ("ecoinvent-3.8-apos", true, 2);
       ("ecoinvent-3.8-consequential", false, 1)]
  ∧ (prints (trace (run Sim.sim notebook Sim.fresh))).*1.*1 =
      ["ecoinvent-3.8-cutoff"; "ecoinvent-3.8-apos";
       "ecoinvent-3.8-consequential"].
Proof.
  assert (completed (run Sim.sim notebook Sim.fresh)) as Hok
    by (vm_compute; exact I).
  split; [exact Hok|]. split; [vm_compute; reflexivity|].
  exact (proj2 (proj2 (X14_printed_lines Sim.sim Sim.fresh)) Hok).
Defined.
